(* ===================================================================== *)
(* minio_spark: the MinIO / Spark data-lake orchestration of              *)
(* src/minio_spark/datalake.py (class MinIOSpark), as a shallow embedding. *)
(*                                                                         *)
(* The object store (MinIO client, MinioBucket, MinioObject), the archive  *)
(* library (zipfile) and the tabular engine (Spark) are collaborators: a   *)
(* method of MinIOSpark is a finite program tree whose nodes are calls to  *)
(* them, and a run of the tree against a handler records every call with   *)
(* its outcome.  A raised exception ends the run: the source has no        *)
(* try/except anywhere.  Statements quantified over handlers hold for      *)
(* every behaviour of the collaborators, failures included.               *)
(*                                                                         *)
(* Conventions of the model:                                               *)
(*  - os.path is posixpath;                                                *)
(*  - a DataFrame is the table it denotes (the engine's laziness is not    *)
(*    modelled), and the lazily created Spark session is part of the       *)
(*    engine calls;                                                        *)
(*  - client.list_objects answers with the list of object names at once;   *)
(*  - option values are strings.                                           *)
(* ===================================================================== *)

From Stdlib Require Import ZArith Ascii String List Lia Bool.
From stdpp Require Import base option gmap strings list fin_maps.

Local Open Scope Z_scope.

(* ===================================================================== *)
(* 1. Python string primitives used by the source                         *)
(* ===================================================================== *)

Module PyStr.

(* s[i:] *)
Definition slice_from (i : nat) (s : string) : string :=
  String.substring i (String.length s - i) s.

(* s[:i] *)
Definition slice_to (i : nat) (s : string) : string :=
  String.substring 0 i s.

(* s.rfind(c) for a one-character c, scanning a string whose first
   character has index [i]: the highest index of [c], or -1. *)
Fixpoint rfind_from (c : ascii) (s : string) (i : Z) : Z :=
  match s with
  | EmptyString => -1
  | String a s' =>
      let r := rfind_from c s' (i + 1) in
      if 0 <=? r then r else if Ascii.eqb a c then i else -1
  end.

Definition rfind (c : ascii) (s : string) : Z := rfind_from c s 0.

(* s.endswith(suffix) *)
Definition endswith (s suffix : string) : bool :=
  let n := String.length s in
  let m := String.length suffix in
  if (m <=? n)%nat then String.eqb (String.substring (n - m) m s) suffix
  else false.

End PyStr.

(* ===================================================================== *)
(* 2. os.path.splitext (posixpath: sep = "/", no altsep, extsep = ".")    *)
(* ===================================================================== *)

Module OsPath.
Import PyStr.

(* The body of the [while filenameIndex < dotIndex] loop of
   genericpath._splitext; [fuel] is the number of iterations left,
   dotIndex - filenameIndex.  [None] is the loop running to its end. *)
Fixpoint splitext_loop (p : string) (dotIndex filenameIndex fuel : nat)
  : option (string * string) :=
  match fuel with
  | O => None
  | S fuel' =>
      match String.get filenameIndex p with
      | Some "."%char => splitext_loop p dotIndex (S filenameIndex) fuel'
      | _ => Some (slice_to dotIndex p, slice_from dotIndex p)
      end
  end.

Definition splitext (p : string) : string * string :=
  let sepIndex := rfind "/" p in
  let dotIndex := rfind "." p in
  if sepIndex <? dotIndex then
    let filenameIndex := Z.to_nat (sepIndex + 1) in
    match splitext_loop p (Z.to_nat dotIndex) filenameIndex
            (Z.to_nat dotIndex - filenameIndex) with
    | Some r => r
    | None => (p, "")
    end
  else (p, "").

End OsPath.

(* ===================================================================== *)
(* 3. Data model                                                          *)
(* ===================================================================== *)

(* Python [bytes]: a sequence of 8-bit characters. *)
Definition bytes := string.

(** Modelled from the spec: minio_spark/object.py (class MinioObject) is
    not among the sources.  A storage object reference is the pair
    (bucket, key); the source reads its fields as [bucket_name] and [name]
    and, once (datalake.py:113), as [object_name], taken here to be the key. *)
Module MinioObject.
Record t := mk { bucket_name : string; name : string }.
Definition object_name (o : t) : string := name o.
End MinioObject.

(* A materialised table: rows of cells. *)
Definition Row := list string.
Definition DataFrame := list Row.

(* spark.read.format(f) followed by .option(k, v) calls, in call order. *)
Record DataFrameReader := mkReader { format : string; options : list (string * string) }.

Definition read_format (format_source : string) : DataFrameReader :=
  {| format := format_source; options := [] |}.

Definition option_ (key value : string) (reader : DataFrameReader) : DataFrameReader :=
  {| format := format reader; options := options reader ++ [(key, value)] |}.

(* The value the engine sees for [key]: the one set last. *)
Fixpoint effective (key : string) (opts : list (string * string)) : option string :=
  match opts with
  | [] => None
  | (k, v) :: rest =>
      match effective key rest with
      | Some v' => Some v'
      | None => if String.eqb k key then Some v else None
      end
  end.

(* Error kinds of section 7 of the specification, and any other exception. *)
Inductive Exn :=
| ArchiveUnreadable
| StorageReadError
| StorageWriteError
| EngineLoadError
| EnginePersistError
| OtherError (what : string).

#[global] Instance Exn_eq_dec : EqDecision Exn.
Proof. solve_decision. Defined.

Inductive Result (A : Type) : Type :=
| Ok (a : A)
| Raise (e : Exn).
Arguments Ok {A} a.
Arguments Raise {A} e.

(* ===================================================================== *)
(* 4. Collaborator calls and programs over them                           *)
(* ===================================================================== *)

(* The calls the methods make to their collaborators.  The classes
   MinioBucket, MinioObject and MinioClient of the package, zipfile and
   Spark are outside the sources: what a call answers, and whether it
   raises, is up to the handler of the run. *)
Inductive Call :=
| BucketExists (bucket : string)               (* MinioBucket.exists() *)
| BucketMake (bucket : string)                 (* MinioBucket.make() *)
| ObjectExists (bucket key : string)           (* MinioObject.exists() *)
| GetObject (bucket key : string)              (* client.get_object(b, k).read() *)
| PutObject (bucket key : string) (data : bytes) (len : nat)
                                               (* client.put_object(b, k, BytesIO(data), len) *)
| ListObjects (bucket prefix : string)         (* client.list_objects(b, prefix=p) *)
| ZipNamelist (zip_buffer : bytes)             (* zipfile.ZipFile(buf, 'r').namelist() *)
| ZipRead (zip_buffer : bytes) (file_name : string)   (* zip_ref.read(file_name) *)
| ReaderLoad (reader : DataFrameReader) (path : string)   (* reader.load(path) *)
| ReadParquet (path : string)                  (* spark.read.parquet(path) *)
| WriteParquet (df : DataFrame) (mode path : string)  (* df.write.mode(m).parquet(path) *)
| CreateOrReplaceTempView (df : DataFrame) (view : string).

(* What a call returns when it does not raise. *)
Definition ret (c : Call) : Type :=
  match c with
  | BucketExists _ | ObjectExists _ _ => bool
  | BucketMake _ | PutObject _ _ _ _ | WriteParquet _ _ _
  | CreateOrReplaceTempView _ _ => unit
  | GetObject _ _ | ZipRead _ _ => bytes
  | ListObjects _ _ | ZipNamelist _ => list string
  | ReaderLoad _ _ | ReadParquet _ => DataFrame
  end.

Inductive Prog (A : Type) : Type :=
| Ret (a : A)
| Vis (c : Call) (k : ret c -> Prog A).
Arguments Ret {A} a.
Arguments Vis {A} c k.

Fixpoint bind {A B : Type} (f : A -> Prog B) (p : Prog A) : Prog B :=
  match p with
  | Ret a => f a
  | Vis c k => Vis c (fun x => bind f (k x))
  end.

#[global] Instance Prog_ret : MRet Prog := @Ret.
#[global] Instance Prog_bind : MBind Prog := @bind.

Definition call (c : Call) : Prog (ret c) := Vis c Ret.

(* One collaborator call of a run, with its outcome. *)
Record Event := Ev { ev_call : Call; ev_result : Result (ret ev_call) }.

Definition Handler (W : Type) : Type := forall c : Call, W -> Result (ret c) * W.

(* A run: the first call that raises ends it, and the exception is the
   result of the whole program. *)
Fixpoint run {W A : Type} (h : Handler W) (p : Prog A) (w : W)
  : Result A * W * list Event :=
  match p with
  | Ret a => (Ok a, w, [])
  | Vis c k =>
      match h c w with
      | (Raise e, w') => (Raise e, w', [Ev c (Raise e)])
      | (Ok x, w') =>
          let '(r, w'', tr) := run h (k x) w' in (r, w'', Ev c (Ok x) :: tr)
      end
  end.

Definition outcome {W A : Type} (x : Result A * W * list Event) : Result A := x.1.1.
Definition final {W A : Type} (x : Result A * W * list Event) : W := x.1.2.
Definition trace {W A : Type} (x : Result A * W * list Event) : list Event := x.2.
Definition calls {W A : Type} (x : Result A * W * list Event) : list Call :=
  ev_call <$> trace x.

(* ===================================================================== *)
(* 5. class MinIOSpark                                                    *)
(* ===================================================================== *)

Module MinIOSpark.
Import PyStr OsPath.

(* get_object: MinioObject(self.client, bucket_name, object_name) *)
Definition get_object (bucket_name object_name : string) : MinioObject.t :=
  MinioObject.mk bucket_name object_name.

(* The [for file_name in zip_ref.namelist()] loop of extract_and_upload_zip. *)
Fixpoint upload_entries (minio_object : MinioObject.t) (zip_buffer : bytes)
    (destination_prefix : string) (namelist : list string)
    (extracted_objects : list MinioObject.t) : Prog (list MinioObject.t) :=
  match namelist with
  | [] => mret extracted_objects
  | file_name :: rest =>
      file_data ← call (ZipRead zip_buffer file_name);
      let file_path := destination_prefix +:+ "/" +:+ file_name in
      _ ← call (PutObject (MinioObject.bucket_name minio_object) file_path file_data
                  (String.length file_data));
      upload_entries minio_object zip_buffer destination_prefix rest
        (extracted_objects ++ [MinioObject.mk (MinioObject.bucket_name minio_object) file_path])
  end.

Definition destination_prefix_of (minio_object : MinioObject.t)
    (destination_object : option MinioObject.t) (extract_to_bucket : bool) : string :=
  if extract_to_bucket then MinioObject.bucket_name minio_object
  else match destination_object with
       | Some d => MinioObject.object_name d
       | None => (splitext (MinioObject.name minio_object)).1
       end.

Definition extract_and_upload_zip (minio_object : MinioObject.t)
    (destination_object : option MinioObject.t) (extract_to_bucket : bool)
  : Prog (list MinioObject.t) :=
  zip_buffer ← call (GetObject (MinioObject.bucket_name minio_object) (MinioObject.name minio_object));
  let destination_prefix :=
    destination_prefix_of minio_object destination_object extract_to_bucket in
  namelist ← call (ZipNamelist zip_buffer);
  upload_entries minio_object zip_buffer destination_prefix namelist [].

(* The [for obj in objects] loop of extract_and_upload_zip_by_prefix. *)
Fixpoint expand_each (bucket_name : string) (objects : list string)
    (extract_to_bucket : bool) : Prog unit :=
  match objects with
  | [] => mret tt
  | obj :: rest =>
      _ ← (if endswith obj ".zip"
            then _ ← extract_and_upload_zip (MinioObject.mk bucket_name obj) None
                       extract_to_bucket; mret tt
            else mret tt);
      expand_each bucket_name rest extract_to_bucket
  end.

Definition extract_and_upload_zip_by_prefix (bucket_name prefix : string)
    (extract_to_bucket : bool) : Prog unit :=
  objects ← call (ListObjects bucket_name prefix);
  expand_each bucket_name objects extract_to_bucket.

Definition default_option_args : list (string * string) :=
  [("header", "true"); ("inferSchema", "true")].

Definition read_csv_to_dataframe (bucket_name prefix delimiter format_source : string)
    (option_args : option (list (string * string))) : Prog DataFrame :=
  let path := "s3a://" +:+ bucket_name +:+ "/" +:+ prefix in
  let reader := read_format format_source in
  let option_args := match option_args with
                     | None => default_option_args
                     | Some o => o
                     end in
  let reader := foldl (fun r kv => option_ kv.1 kv.2 r) reader option_args in
  let reader := option_ "delimiter" delimiter reader in
  call (ReaderLoad reader path).

Definition read_csv_from_zip (bucket_name prefix delimiter format_source : string)
    (option_args : option (list (string * string))) : Prog DataFrame :=
  _ ← extract_and_upload_zip_by_prefix bucket_name prefix false;
  let extracted_folder_object := MinioObject.mk bucket_name prefix in
  read_csv_to_dataframe (MinioObject.bucket_name extracted_folder_object)
    (MinioObject.name extracted_folder_object) delimiter format_source option_args.

Definition read_parquet_to_dataframe (minio_object : MinioObject.t) : Prog DataFrame :=
  let parquet_path :=
    "s3a://" +:+ MinioObject.bucket_name minio_object +:+ "/" +:+ MinioObject.name minio_object in
  call (ReadParquet parquet_path).

Definition dataframe_to_parquet (df : DataFrame) (minio_object : MinioObject.t) : Prog unit :=
  let parquet_path :=
    "s3a://" +:+ MinioObject.bucket_name minio_object +:+ "/" +:+ MinioObject.name minio_object in
  call (WriteParquet df "overwrite" parquet_path).

(* datalake.py:250 *)
Definition parquet_object_name (prefix : string) : string :=
  (splitext prefix).1 +:+ ".parquet".

(* datalake.py:283-284 *)
Definition view_name (prefix : string) (temp_view_name : option string) : string :=
  match temp_view_name with
  | None => (splitext prefix).1
  | Some n => n
  end.

Definition ingest_file_to_datalake (bucket_name prefix destination_bucket_name : string)
    (temp_view_name : option string) (delimiter : string)
    (option_args : option (list (string * string))) : Prog DataFrame :=
  let parquet_object_name := parquet_object_name prefix in
  bucket_exists ← call (BucketExists destination_bucket_name);
  _ ← (if negb bucket_exists then call (BucketMake destination_bucket_name) else mret tt);
  let parquet_minio_object := MinioObject.mk destination_bucket_name parquet_object_name in
  parquet_exists ← call (ObjectExists (MinioObject.bucket_name parquet_minio_object)
                           (MinioObject.name parquet_minio_object));
  df ← (if (parquet_exists : bool) then read_parquet_to_dataframe parquet_minio_object
        else
          let minio_object := get_object bucket_name prefix in
          df ← (if endswith (MinioObject.name minio_object) ".zip" then
                  _ ← extract_and_upload_zip minio_object None true;
                  let extracted_folder_object :=
                    MinioObject.mk bucket_name (splitext (MinioObject.name minio_object)).1 in
                  read_csv_to_dataframe (MinioObject.bucket_name extracted_folder_object)
                    (MinioObject.name extracted_folder_object) delimiter "csv" option_args
                else
                  read_csv_to_dataframe bucket_name prefix delimiter "csv" option_args);
          _ ← dataframe_to_parquet df parquet_minio_object;
          read_parquet_to_dataframe parquet_minio_object);
  let temp_view_name := view_name prefix temp_view_name in
  _ ← call (CreateOrReplaceTempView df temp_view_name);
  mret df.

End MinIOSpark.

(* ===================================================================== *)
(* 6. ingest_file_to_datalake in phases                                    *)
(* ===================================================================== *)

Section Phases.
Import PyStr OsPath MinIOSpark.

(* The else branch of the cache check (datalake.py:263-280). *)
Definition materialise (b p d delim : string) (opts : option (list (string * string)))
  : Prog DataFrame :=
  let parquet_minio_object := MinioObject.mk d (parquet_object_name p) in
  df ← (if endswith p ".zip" then
          _ ← extract_and_upload_zip (get_object b p) None true;
          read_csv_to_dataframe b (splitext p).1 delim "csv" opts
        else read_csv_to_dataframe b p delim "csv" opts);
  _ ← dataframe_to_parquet df parquet_minio_object;
  read_parquet_to_dataframe parquet_minio_object.

(* The end of the method (datalake.py:282-287). *)
Definition publish (p : string) (v : option string) (df : DataFrame) : Prog DataFrame :=
  _ ← call (CreateOrReplaceTempView df (view_name p v)); mret df.

(* Everything before it (datalake.py:250-280). *)
Definition obtain (b p d delim : string) (opts : option (list (string * string)))
  : Prog DataFrame :=
  bucket_exists ← call (BucketExists d);
  _ ← (if negb bucket_exists then call (BucketMake d) else mret tt);
  parquet_exists ← call (ObjectExists d (parquet_object_name p));
  if (parquet_exists : bool)
  then read_parquet_to_dataframe (MinioObject.mk d (parquet_object_name p))
  else materialise b p d delim opts.

(* The address of the canonical artifact as the engine sees it. *)
Definition artifact_path (d p : string) : string :=
  "s3a://" +:+ d +:+ "/" +:+ parquet_object_name p.

(* From the cache check on (datalake.py:257-287). *)
Definition after_ensure (b p d : string) (v : option string) (delim : string)
    (opts : option (list (string * string))) : Prog DataFrame :=
  parquet_exists ← call (ObjectExists d (parquet_object_name p));
  df ← (if (parquet_exists : bool) then call (ReadParquet (artifact_path d p))
        else materialise b p d delim opts);
  publish p v df.

End Phases.

(* ===================================================================== *)
(* 7. Observing a run                                                     *)
(* ===================================================================== *)

Definition succeeded (ev : Event) : bool :=
  match ev_result ev with Ok _ => true | Raise _ => false end.

Definition raised (ev : Event) : option Exn :=
  match ev_result ev with Ok _ => None | Raise e => Some e end.

(* The event is the existence check of an object, answered [b]. *)
Definition exists_answered (b : bool) (ev : Event) : bool :=
  match ev with
  | Ev c r =>
      match c as c0 return Result (ret c0) -> bool with
      | ObjectExists _ _ =>
          fun r => match r with Ok b' => Bool.eqb b b' | Raise _ => false end
      | _ => fun _ => false
      end r
  end.

(* The cache check of the call found the artifact / found nothing. *)
Definition cache_hit (tr : list Event) : bool := existsb (exists_answered true) tr.
Definition cache_miss (tr : list Event) : bool := existsb (exists_answered false) tr.

(* Kinds of collaborator call. *)
Definition is_extraction (c : Call) : bool :=
  match c with
  | GetObject _ _ | ZipNamelist _ | ZipRead _ _ | PutObject _ _ _ _ => true
  | _ => false
  end.
Definition is_csv_read (c : Call) : bool :=
  match c with ReaderLoad _ _ => true | _ => false end.
Definition is_persist (c : Call) : bool :=
  match c with WriteParquet _ _ _ => true | _ => false end.
Definition is_view (c : Call) : bool :=
  match c with CreateOrReplaceTempView _ _ => true | _ => false end.
Definition is_exists_check (c : Call) : bool :=
  match c with ObjectExists _ _ => true | _ => false end.
Definition is_storage_write (c : Call) : bool :=
  match c with PutObject _ _ _ _ | WriteParquet _ _ _ => true | _ => false end.

(* Every call a program can ever issue satisfies [P]. *)
Fixpoint all_calls {A : Type} (P : Call -> Prop) (p : Prog A) : Prop :=
  match p with
  | Ret _ => True
  | Vis c k => P c /\ forall x, all_calls P (k x)
  end.

Definition is_entry_call (c : Call) : bool :=
  match c with ZipRead _ _ | PutObject _ _ _ _ => true | _ => false end.

Definition is_get (c : Call) : bool :=
  match c with GetObject _ _ => true | _ => false end.

Definition is_engine_read (c : Call) : bool :=
  match c with ReaderLoad _ _ | ReadParquet _ => true | _ => false end.

(* Calls that read a stored source object / that change the store. *)
Definition reads_source (c : Call) : bool :=
  match c with
  | GetObject _ _ | ListObjects _ _ | ReaderLoad _ _ => true
  | _ => false
  end.
Definition is_mutation (c : Call) : bool :=
  match c with
  | BucketMake _ | PutObject _ _ _ _ | WriteParquet _ _ _ => true
  | _ => false
  end.

(* Some call of the run raised [e]. *)
Definition some_call_raised (e : Exn) (tr : list Event) : bool :=
  existsb (fun ev => bool_decide (raised ev = Some e)) tr.

(* The bucket-ensure phase either raises, ending the call, or hands over
   to the cache check. *)
Definition ensure_events (d : string) (tr : list Event) : Prop :=
  tr = [Ev (BucketExists d) (Ok true)] \/
  tr = [Ev (BucketExists d) (Ok false); Ev (BucketMake d) (Ok tt)].

(* The two ways of a cache miss: expanding the archive at (bucket, key), or
   loading the address [path] directly.  The way taken shows in the first
   source access of the call. *)
Inductive Branch :=
| EXPAND (bucket key : string)
| DIRECT (path : string).

Fixpoint branch_taken (cs : list Call) : option Branch :=
  match cs with
  | [] => None
  | GetObject b k :: _ => Some (EXPAND b k)
  | ReaderLoad _ path :: _ => Some (DIRECT path)
  | _ :: rest => branch_taken rest
  end.

(* A call that names the canonical artifact names it by the derived key. *)
Definition addresses_artifact (d p : string) (c : Call) : Prop :=
  match c with
  | ObjectExists b k => b = d /\ k = MinIOSpark.parquet_object_name p
  | ReadParquet path | WriteParquet _ _ path => path = artifact_path d p
  | _ => True
  end.

(* The archives whose expansion a run started: expansion begins by
   fetching the archive. *)
Definition started (cs : list Call) : list Call := List.filter is_get cs.

(* The listed objects whose key ends in ".zip", as the fetches expanding
   them begin with. *)
Definition listed_archives (bucket : string) (objects : list string) : list Call :=
  GetObject bucket <$> List.filter (fun o => PyStr.endswith o ".zip") objects.

(* The batch isolates failures: whatever happens while expanding one
   archive, every listed archive is expanded. *)
Definition expands_every_listed_archive {W : Type} (h : Handler W) (w : W)
    (bucket prefix : string) (extract_to_bucket : bool) : Prop :=
  forall objects w1,
    h (ListObjects bucket prefix) w = (Ok objects, w1) ->
    started (calls (run h (MinIOSpark.extract_and_upload_zip_by_prefix
                             bucket prefix extract_to_bucket) w))
    = listed_archives bucket objects.

(* Every object written goes to [bucket], below [pre]; every CSV load reads
   the address [path]. *)
Definition writes_below_reads_at (bucket pre path : string) (c : Call) : Prop :=
  match c with
  | PutObject b k _ _ => b = bucket /\ exists file_name, k = pre +:+ "/" +:+ file_name
  | ReaderLoad _ path' => path' = path
  | _ => True
  end.

(* The character [c] does not occur in [s]. *)
Fixpoint no_char (c : ascii) (s : string) : bool :=
  match s with
  | EmptyString => true
  | String a s' => negb (Ascii.eqb a c) && no_char c s'
  end.

(* A bucket name: no "/" in it. *)
Fixpoint no_slash (s : string) : bool :=
  match s with
  | EmptyString => true
  | String a s' => negb (Ascii.eqb a "/") && no_slash s'
  end.

(* ===================================================================== *)
(* 8. A reference store and engine                                        *)
(* ===================================================================== *)

Module Ref.
Import PyStr.

(* Buckets, the objects in them, the columnar datasets the engine wrote,
   and the temporary views of the session. *)
Record World := mkWorld {
  buckets : gset string;
  objects : gmap (string * string) bytes;
  datasets : gmap (string * string) DataFrame;
  views : gmap string DataFrame
}.

Definition startswith (s pre : string) : bool :=
  String.eqb (String.substring 0 (String.length pre) s) pre.

(* "bucket/key" -> (bucket, key), cut at the first "/" *)
Fixpoint split_at_slash (s : string) : option (string * string) :=
  match s with
  | EmptyString => None
  | String a s' =>
      if Ascii.eqb a "/" then Some (EmptyString, s')
      else match split_at_slash s' with
           | Some (x, y) => Some (String a x, y)
           | None => None
           end
  end.

(* "s3a://bucket/key" -> (bucket, key) *)
Definition split_path (path : string) : option (string * string) :=
  if startswith path "s3a://" then split_at_slash (slice_from 6 path) else None.

(* Cut [s] at every occurrence of the character [d]. *)
Fixpoint split_on (d : ascii) (s : string) : list string :=
  match s with
  | EmptyString => [EmptyString]
  | String a s' =>
      if Ascii.eqb a d then EmptyString :: split_on d s'
      else match split_on d s' with
           | [] => [String a EmptyString]
           | w :: ws => String a w :: ws
           end
  end.

Definition newline : ascii := Ascii.ascii_of_nat 10.

Definition lines (data : bytes) : list string :=
  filter (fun l => l <> EmptyString) (split_on newline data).

(* A delimiter-separated text file read with the reader's options. *)
Definition parse_csv (reader : DataFrameReader) (data : bytes) : DataFrame :=
  let d := match effective "delimiter" (options reader) with
           | Some (String a _) => a
           | _ => ","%char
           end in
  let rows := split_on d <$> lines data in
  match effective "header" (options reader) with
  | Some "true" => tail rows
  | _ => rows
  end.

(* The objects of bucket [b] at key [p] or below the folder [p]. *)
Definition under (b p : string) (objs : gmap (string * string) bytes)
  : list (string * string * bytes) :=
  filter (fun kv => bool_decide (kv.1.1 = b) &&
                    (String.eqb kv.1.2 p || startswith kv.1.2 (p +:+ "/")))
         (map_to_list objs).

(* The payload zip_ref.read(name) returns: that of the last entry of the
   central directory carrying the name. *)
Fixpoint zip_read (entries : list (string * bytes)) (file_name : string) : option bytes :=
  match entries with
  | [] => None
  | (n, d) :: rest =>
      match zip_read rest file_name with
      | Some d' => Some d'
      | None => if String.eqb n file_name then Some d else None
      end
  end.

Section Handler.
(* The archive decoder: the entries of a byte string that is a ZIP. *)
Variable unzip : bytes -> option (list (string * bytes)).

Definition handle (c : Call) (w : World) : Result (ret c) * World :=
  match c as c0 return Result (ret c0) * World with
  | BucketExists b => (Ok (bool_decide (b ∈ buckets w)), w)
  | BucketMake b =>
      (Ok tt, mkWorld ({[b]} ∪ buckets w) (objects w) (datasets w) (views w))
  | ObjectExists b k =>
      (Ok (bool_decide (is_Some (objects w !! (b, k))) ||
           bool_decide (is_Some (datasets w !! (b, k)))), w)
  | GetObject b k =>
      match objects w !! (b, k) with
      | Some data => (Ok data, w)
      | None => (Raise StorageReadError, w)
      end
  | PutObject b k data _ =>
      if bool_decide (b ∈ buckets w)
      then (Ok tt, mkWorld (buckets w) (<[(b, k) := data]> (objects w))
                     (datasets w) (views w))
      else (Raise StorageWriteError, w)
  | ListObjects b p =>
      (Ok ((fun kv => kv.1.2) <$>
           filter (fun kv => bool_decide (kv.1.1 = b) && startswith kv.1.2 p)
                  (map_to_list (objects w))), w)
  | ZipNamelist buf =>
      match unzip buf with
      | Some entries => (Ok (fst <$> entries), w)
      | None => (Raise ArchiveUnreadable, w)
      end
  | ZipRead buf file_name =>
      match unzip buf ≫= (fun entries => zip_read entries file_name) with
      | Some data => (Ok data, w)
      | None => (Raise ArchiveUnreadable, w)
      end
  | ReaderLoad reader path =>
      match split_path path with
      | Some (b, p) =>
          match under b p (objects w) with
          | [] => (Raise EngineLoadError, w)
          | files => (Ok (concat ((fun kv => parse_csv reader kv.2) <$> files)), w)
          end
      | None => (Raise EngineLoadError, w)
      end
  | ReadParquet path =>
      match split_path path ≫= (fun bk => datasets w !! bk) with
      | Some df => (Ok df, w)
      | None => (Raise EngineLoadError, w)
      end
  | WriteParquet df _ path =>
      match split_path path with
      | Some (b, k) =>
          if bool_decide (b ∈ buckets w)
          then (Ok tt, mkWorld (buckets w) (objects w)
                         (<[(b, k) := df]> (datasets w)) (views w))
          else (Raise EnginePersistError, w)
      | None => (Raise EnginePersistError, w)
      end
  | CreateOrReplaceTempView df v =>
      (Ok tt, mkWorld (buckets w) (objects w) (datasets w) (<[v := df]> (views w)))
  end.

End Handler.
End Ref.

(* ===================================================================== *)
(* 9. Scenarios on the reference store and engine                         *)
(* ===================================================================== *)

Module Scenario.

Definition nl : string := String Ref.newline EmptyString.

(* rows.csv: a header line and three rows *)
Definition rows_csv : bytes :=
  "id,v" +:+ nl +:+ "1,a" +:+ nl +:+ "2,b" +:+ nl +:+ "3,c" +:+ nl.

Definition three_rows : DataFrame := [["1"; "a"]; ["2"; "b"]; ["3"; "c"]].

(* The bytes of batch.zip, an archive holding rows.csv, and of an archive
   holding a.csv and sub/b.csv; any other byte string is not an archive. *)
Definition batch_zip : bytes := "PK:batch".
Definition pair_zip : bytes := "PK:pair".

Definition unzip (data : bytes) : option (list (string * bytes)) :=
  if String.eqb data batch_zip then Some [("rows.csv", rows_csv)]
  else if String.eqb data pair_zip then Some [("a.csv", "A"); ("sub/b.csv", "B")]
  else None.

Definition handle : Handler Ref.World := Ref.handle unzip.

(* Bucket raw holds batch.zip; there is no bucket stage. *)
Definition zip_world : Ref.World :=
  Ref.mkWorld {["raw"]} {[ ("raw", "batch.zip") := batch_zip ]} ∅ ∅.

(* Bucket raw holds rows.csv; there is no bucket stage. *)
Definition csv_world : Ref.World :=
  Ref.mkWorld {["raw"]} {[ ("raw", "rows.csv") := rows_csv ]} ∅ ∅.

(* The canonical artifact of raw/rows.csv is in stage; raw is empty. *)
Definition cached_world : Ref.World :=
  Ref.mkWorld {["raw"; "stage"]} ∅ {[ ("stage", "rows.parquet") := three_rows ]} ∅.

(* Bucket raw holds a text file named like an archive, then batch.zip. *)
Definition broken_world : Ref.World :=
  Ref.mkWorld {["raw"]}
    {[ ("raw", "a.zip") := "not an archive"; ("raw", "batch.zip") := batch_zip ]} ∅ ∅.

(* Bucket B holds the archive P.zip with entries a.csv and sub/b.csv. *)
Definition pair_world : Ref.World :=
  Ref.mkWorld {["B"]} {[ ("B", "P.zip") := pair_zip ]} ∅ ∅.

End Scenario.

(* ===================================================================== *)
(* 9a. class MinIOClient (src/client.py)                                  *)
(* ===================================================================== *)

(* The wrapper over the library client [self.client].  The library's
   bucket_exists, make_bucket and get_object are the calls BucketExists,
   BucketMake and GetObject; list_buckets and fput_object (which reads a
   local file) have no counterpart among the calls and are left out. *)
Module MinIOClient.

Definition bucket_exists (bucket_name : string) : Prog bool :=
  call (BucketExists bucket_name).

Definition make_bucket (bucket_name : string) : Prog unit :=
  exists_ ← bucket_exists bucket_name;
  if negb exists_ then call (BucketMake bucket_name) else mret tt.

Definition get_object (bucket_name object_name : string) : Prog bytes :=
  call (GetObject bucket_name object_name).

End MinIOClient.

(* ===================================================================== *)
(* 9b. Further observations of a run                                      *)
(* ===================================================================== *)

(* The key an entry of the archive is written to. *)
Definition entry_key (destination_prefix file_name : string) : string :=
  destination_prefix +:+ "/" +:+ file_name.

(* The events of uploading the entries [names] of the archive [buf], all
   of them with success: each entry is read and then written, unchanged
   and with its own length, to its key in [bucket]. *)
Inductive uploaded (bucket pre : string) (buf : bytes) : list string -> list Event -> Prop :=
| uploaded_nil : uploaded bucket pre buf [] []
| uploaded_cons (n : string) (ns : list string) (data : bytes) (tr : list Event) :
    uploaded bucket pre buf ns tr ->
    uploaded bucket pre buf (n :: ns)
      (Ev (ZipRead buf n) (Ok data)
       :: Ev (PutObject bucket (entry_key pre n) data (String.length data)) (Ok tt)
       :: tr).

(* The (bucket, key) pairs of the writes that returned. *)
Fixpoint written (tr : list Event) : list (string * string) :=
  match tr with
  | [] => []
  | Ev (PutObject b k _ _) (Ok _) :: rest => (b, k) :: written rest
  | _ :: rest => written rest
  end.

(* Every fetch is of the archive [m]; every write goes to the bucket of
   [m], to the key of an entry below [pre]. *)
Definition confined_to (m : MinioObject.t) (pre : string) (c : Call) : Prop :=
  match c with
  | GetObject b k => b = MinioObject.bucket_name m /\ k = MinioObject.name m
  | PutObject b k _ _ => b = MinioObject.bucket_name m /\ exists n, k = entry_key pre n
  | _ => True
  end.

(* Every fetch is of an archive of [bucket] whose key ends in ".zip";
   every write goes to [bucket], to the key of an entry below the key of
   such an archive without its extension. *)
Definition expands_beside_archive (bucket : string) (c : Call) : Prop :=
  match c with
  | GetObject b z => b = bucket /\ PyStr.endswith z ".zip" = true
  | PutObject b k _ _ =>
      b = bucket /\ exists z n, PyStr.endswith z ".zip" = true
                               /\ k = entry_key (OsPath.splitext z).1 n
  | _ => True
  end.

(* The reader read_csv_to_dataframe builds (datalake.py:186-200). *)
Definition reader_of (format_source delimiter : string)
    (option_args : option (list (string * string))) : DataFrameReader :=
  option_ "delimiter" delimiter
    (foldl (fun r kv => option_ kv.1 kv.2 r) (read_format format_source)
       (match option_args with
        | None => MinIOSpark.default_option_args
        | Some o => o
        end)).

(* The address an ingestion loads its source from: the folder named after
   the archive for a key ending in ".zip", the key itself otherwise. *)
Definition source_path (b p : string) : string :=
  "s3a://" +:+ b +:+ "/" +:+ (if PyStr.endswith p ".zip" then (OsPath.splitext p).1 else p).

(* What an ingestion of (b, p) into d may change: objects of the source
   bucket, and only for an archive key; the canonical artifact, written
   in overwrite mode; the destination bucket, which it may create. *)
Definition write_footprint (b p d : string) (c : Call) : Prop :=
  match c with
  | PutObject b' _ _ _ => b' = b /\ PyStr.endswith p ".zip" = true
  | WriteParquet _ mode path => mode = "overwrite" /\ path = artifact_path d p
  | BucketMake b' => b' = d
  | _ => True
  end.

(* What it may read: the archive at (b, p), and only for an archive key;
   the source address, as CSV with the caller's options; the canonical
   artifact; the existence of the destination bucket and of the artifact. *)
Definition read_footprint (b p d delimiter : string)
    (option_args : option (list (string * string))) (c : Call) : Prop :=
  match c with
  | GetObject b' k => b' = b /\ k = p /\ PyStr.endswith p ".zip" = true
  | ListObjects _ _ => False
  | ReaderLoad reader path =>
      reader = reader_of "csv" delimiter option_args /\ path = source_path b p
  | ReadParquet path => path = artifact_path d p
  | BucketExists b' => b' = d
  | ObjectExists b' k => b' = d /\ k = MinIOSpark.parquet_object_name p
  | _ => True
  end.

Definition is_bucket_call (c : Call) : bool :=
  match c with BucketExists _ | BucketMake _ => true | _ => false end.

(* The address of the source object as the engine sees it. *)
Definition source_address (b p : string) : string :=
  "s3a://" +:+ b +:+ "/" +:+ p.

(* The call reads the source object at (b, p): it fetches it through the
   client, or the engine loads its address. *)
Definition reads_source_object (b p : string) (c : Call) : bool :=
  match c with
  | GetObject b' k => String.eqb b' b && String.eqb k p
  | ReaderLoad _ path | ReadParquet path => String.eqb path (source_address b p)
  | _ => false
  end.

(* On a cache hit the source object is never read. *)
Definition source_never_read_on_hit {W : Type} (h : Handler W) (w : W)
    (b p d : string) (v : option string) (delim : string)
    (opts : option (list (string * string))) : Prop :=
  cache_hit (trace (run h (MinIOSpark.ingest_file_to_datalake b p d v delim opts) w)) = true ->
  forallb (fun c => negb (reads_source_object b p c))
    (calls (run h (MinIOSpark.ingest_file_to_datalake b p d v delim opts) w)) = true.

(* Bucket stage holds x.parquet, a dataset whose key is its own canonical
   key. *)
Module Alias.

Definition world : Ref.World :=
  Ref.mkWorld {["stage"]} ∅ {[ ("stage", "x.parquet") := Scenario.three_rows ]} ∅.

End Alias.

(* A store with a quota: it takes no write once it holds two objects, and
   otherwise behaves as the reference store of the scenarios. *)
Module Quota.

Definition handle : Handler Ref.World :=
  fun c =>
    match c as c0 return Ref.World -> Result (ret c0) * Ref.World with
    | PutObject b k data len =>
        fun w => if (2 <=? size (Ref.objects w))%nat
                 then (Raise StorageWriteError, w)
                 else Scenario.handle (PutObject b k data len) w
    | c' => Scenario.handle c'
    end.

End Quota.

(* ===================================================================== *)
(* 10. General facts about strings, programs and runs                     *)
(* ===================================================================== *)

Example splitext_csv : OsPath.splitext "sales/jan.csv" = ("sales/jan", ".csv").
Proof. reflexivity. Qed.
Example splitext_hidden : OsPath.splitext "dir/.hidden" = ("dir/.hidden", "").
Proof. reflexivity. Qed.
Example splitext_dotdir : OsPath.splitext "a.b/c" = ("a.b/c", "").
Proof. reflexivity. Qed.
Example splitext_two : OsPath.splitext "x.tar.gz" = ("x.tar", ".gz").
Proof. reflexivity. Qed.
Example endswith_zip : PyStr.endswith "batch.zip" ".zip" = true.
Proof. reflexivity. Qed.
Example endswith_ZIP : PyStr.endswith "batch.ZIP" ".zip" = false.
Proof. reflexivity. Qed.
Example endswith_short : PyStr.endswith "zip" ".zip" = false.
Proof. reflexivity. Qed.

Example csv_ingest_runs :
  outcome (run Scenario.handle
             (MinIOSpark.ingest_file_to_datalake "raw" "rows.csv" "stage" None "," None)
             Scenario.csv_world) = Ok Scenario.three_rows.
Proof. vm_compute. reflexivity. Qed.

Section StringFacts.
Import PyStr OsPath.

Lemma append_cons (a : ascii) (s t : string) : String a s +:+ t = String a (s +:+ t).
Proof. reflexivity. Qed.

Lemma append_empty_r (s : string) : s +:+ "" = s.
Proof. induction s as [|a s IH]; [reflexivity | by rewrite append_cons, IH]. Qed.

Lemma substring_zero_length (s : string) : String.substring 0 (String.length s) s = s.
Proof. induction s as [|a s IH]; simpl; [reflexivity | by rewrite IH]. Qed.

(* s[:i] + s[i:] == s, for every i *)
Lemma slice_to_from (i : nat) (s : string) : slice_to i s +:+ slice_from i s = s.
Proof.
  unfold slice_to, slice_from. revert i.
  induction s as [|a s IH]; intros [|i]; simpl; try reflexivity.
  - by rewrite substring_zero_length.
  - rewrite append_cons. f_equal. apply IH.
Qed.

Lemma splitext_loop_join p dotIndex filenameIndex fuel r :
  splitext_loop p dotIndex filenameIndex fuel = Some r -> r.1 +:+ r.2 = p.
Proof.
  revert filenameIndex. induction fuel as [|fuel IH]; intros fi; simpl; [done|].
  destruct (String.get fi p) as [a|].
  - destruct (Ascii.eqb_spec a "."%char) as [->|Hne].
    + apply IH.
    + destruct a as [[] [] [] [] [] [] [] []]; try (intros [= <-]; apply slice_to_from);
        try apply IH.
  - intros [= <-]. apply slice_to_from.
Qed.

(* root + ext == p *)
Lemma splitext_join (p : string) : (splitext p).1 +:+ (splitext p).2 = p.
Proof.
  unfold splitext. destruct (rfind "/" p <? rfind "." p).
  - destruct (splitext_loop _ _ _ _) as [r|] eqn:E.
    + by apply splitext_loop_join in E.
    + apply append_empty_r.
  - apply append_empty_r.
Qed.

End StringFacts.

Section RunFacts.
Context {W : Type} (h : Handler W).

Lemma run_bind {A B : Type} (p : Prog A) (f : A -> Prog B) (w : W) :
  run h (p ≫= f) w =
    match run h p w with
    | (Ok a, w', tr) => let '(r, w'', tr') := run h (f a) w' in (r, w'', tr ++ tr')
    | (Raise e, w', tr) => (Raise e, w', tr)
    end.
Proof.
  revert w. induction p as [a|c k IH]; intros w.
  - change (Ret a ≫= f) with (f a). simpl. by destruct (run h (f a) w) as [[? ?] ?].
  - change (Vis c k ≫= f) with (Vis c (fun x => k x ≫= f)). simpl.
    destruct (h c w) as [[x|e] w1]; [|done].
    rewrite IH. destruct (run h (k x) w1) as [[[a|e] w2] tr]; [|done].
    by destruct (run h (f a) w2) as [[? ?] ?].
Qed.

Lemma all_calls_bind {A B : Type} (P : Call -> Prop) (p : Prog A) (f : A -> Prog B) :
  all_calls P p -> (forall a, all_calls P (f a)) -> all_calls P (p ≫= f).
Proof.
  intros Hp Hf. induction p as [a|c k IH].
  - apply Hf.
  - destruct Hp as [Hc Hk]. split; [done|]. intros x. apply IH, Hk.
Qed.

Lemma all_calls_run {A : Type} (P : Call -> Prop) (p : Prog A) (w : W) :
  all_calls P p -> Forall P (calls (run h p w)).
Proof.
  revert w. induction p as [a|c k IH]; intros w Hp; simpl.
  - constructor.
  - destruct Hp as [Hc Hk]. unfold calls, trace. simpl.
    destruct (h c w) as [[x|e] w1]; simpl.
    + specialize (IH x w1 (Hk x)). unfold calls, trace in IH.
      destruct (run h (k x) w1) as [[r w2] tr]. simpl in *. by constructor.
    + by repeat constructor.
Qed.

(* An exception that ends a run is the one its last call raised, and
   every call before it returned. *)
Lemma run_raise_last {A : Type} (p : Prog A) (w : W) (e : Exn) :
  outcome (run h p w) = Raise e ->
  exists c tr, trace (run h p w) = tr ++ [Ev c (Raise e)] /\ forallb succeeded tr = true.
Proof.
  revert w. induction p as [a|c k IH]; intros w; unfold outcome, trace; simpl; [done|].
  destruct (h c w) as [[x|e'] w1]; simpl.
  - specialize (IH x w1). unfold outcome, trace in IH.
    destruct (run h (k x) w1) as [[r w2] tr]. simpl in *. intros Hr.
    destruct (IH Hr) as (c' & tr' & -> & Hs). exists c', (Ev c (Ok x) :: tr'). by split.
  - intros [= ->]. by exists c, [].
Qed.

Lemma run_ok_succeeded {A : Type} (p : Prog A) (w : W) (a : A) :
  outcome (run h p w) = Ok a -> forallb succeeded (trace (run h p w)) = true.
Proof.
  revert w. induction p as [a'|c k IH]; intros w; unfold outcome, trace; simpl; [done|].
  destruct (h c w) as [[x|e'] w1]; simpl; [|done].
  specialize (IH x w1). unfold outcome, trace in IH.
  destruct (run h (k x) w1) as [[r w2] tr]. simpl in *. done.
Qed.

End RunFacts.

(* ===================================================================== *)
(* 11. Which calls each method can issue                                  *)
(* ===================================================================== *)

Section CallKinds.
Import PyStr OsPath MinIOSpark.

Lemma all_calls_mono {A : Type} (P Q : Call -> Prop) (p : Prog A) :
  (forall c, P c -> Q c) -> all_calls P p -> all_calls Q p.
Proof.
  intros HPQ. induction p as [a|c k IH]; simpl; [done|].
  intros [Hc Hk]. split; [by apply HPQ|]. intros x. apply IH, Hk.
Qed.

Lemma upload_entries_calls m buf pre names acc :
  all_calls (fun c => is_entry_call c = true) (upload_entries m buf pre names acc).
Proof.
  revert acc. induction names as [|n names IH]; intros acc; simpl; [done|].
  split; [done|]. intros data. split; [done|]. intros []. apply IH.
Qed.

Lemma extract_and_upload_zip_calls m dst etb :
  all_calls (fun c => is_extraction c = true) (extract_and_upload_zip m dst etb).
Proof.
  unfold extract_and_upload_zip. simpl. split; [done|]. intros buf.
  split; [done|]. intros names.
  eapply all_calls_mono; [|apply upload_entries_calls]. by intros [].
Qed.

End CallKinds.

(* ===================================================================== *)
(* 12. Runs of ingest_file_to_datalake, phase by phase                    *)
(* ===================================================================== *)

Section IngestPhases.
Import PyStr OsPath MinIOSpark.

Lemma ingest_eq b p d v delim opts :
  ingest_file_to_datalake b p d v delim opts =
    (bucket_exists ← call (BucketExists d);
     _ ← (if negb bucket_exists then call (BucketMake d) else mret tt);
     after_ensure b p d v delim opts).
Proof. reflexivity. Qed.

Lemma materialise_calls b p d delim opts :
  all_calls (fun c => is_exists_check c = false /\ is_view c = false)
    (materialise b p d delim opts).
Proof.
  unfold materialise. apply all_calls_bind.
  - destruct (endswith p ".zip").
    + apply all_calls_bind.
      * eapply all_calls_mono; [|apply extract_and_upload_zip_calls]. by intros [].
      * intros _. by simpl.
    + by simpl.
  - intros df. by simpl.
Qed.

Lemma obtain_calls b p d delim opts :
  all_calls (fun c => is_view c = false) (obtain b p d delim opts).
Proof.
  unfold obtain. simpl. split; [done|]. intros [|]; simpl.
  - split; [done|]. intros [|]; [by simpl|].
    eapply all_calls_mono; [|apply materialise_calls]. by intros ? [].
  - split; [done|]. intros []. split; [done|]. intros [|]; [by simpl|].
    eapply all_calls_mono; [|apply materialise_calls]. by intros ? [].
Qed.

Lemma after_miss_calls b p d v delim opts :
  all_calls (fun c => is_exists_check c = false)
    (materialise b p d delim opts ≫= publish p v).
Proof.
  apply all_calls_bind.
  - eapply all_calls_mono; [|apply materialise_calls]. by intros ? [].
  - intros df. by simpl.
Qed.

Context {W : Type} (h : Handler W).

Lemma no_check_no_answer {A : Type} (x : Result A * W * list Event) (b0 : bool) :
  Forall (fun c => is_exists_check c = false) (calls x) ->
  existsb (exists_answered b0) (trace x) = false.
Proof.
  unfold calls. generalize (trace x). intros tr.
  induction tr as [|[c r] tr IH]; simpl; [done|].
  intros Hf. apply Forall_cons in Hf as [Hc Hf]. rewrite (IH Hf).
  by destruct c.
Qed.

#[local] Arguments materialise : simpl never.

Lemma run_ingest_obtain_publish w b p d v delim opts :
  run h (ingest_file_to_datalake b p d v delim opts) w =
  run h (obtain b p d delim opts ≫= publish p v) w.
Proof.
  rewrite ingest_eq. unfold obtain, after_ensure. simpl.
  destruct (h (BucketExists d) w) as [[[] |e] w1]; simpl; [reflexivity| |reflexivity].
  destruct (h (BucketMake d) w1) as [[[] |e] w2]; reflexivity.
Qed.

(* The calls of an ingestion whose cache check found the artifact. *)
Lemma after_ensure_hit_shape w b p d v delim opts :
  let r := run h (after_ensure b p d v delim opts) w in
  cache_hit (trace r) = true ->
  (calls r = [ObjectExists d (parquet_object_name p); ReadParquet (artifact_path d p)]
   /\ exists e, outcome r = Raise e)
  \/ exists df, calls r = [ObjectExists d (parquet_object_name p);
                          ReadParquet (artifact_path d p);
                          CreateOrReplaceTempView df (view_name p v)].
Proof.
  unfold after_ensure, calls, trace, outcome. simpl.
  destruct (h (ObjectExists d (parquet_object_name p)) w) as [[[] |e] w3]; simpl.
  - destruct (h (ReadParquet _) w3) as [[df|e] w4]; simpl.
    + destruct (h (CreateOrReplaceTempView df _) w4) as [[[]|e] w5]; simpl; intros _;
        right; by exists df.
    + intros _. left. split; [done|]. by exists e.
  - pose proof (no_check_no_answer
      (run h (materialise b p d delim opts ≫= publish p v) w3) true
      (all_calls_run h _ _ w3 (after_miss_calls b p d v delim opts))) as Hno.
    unfold trace in Hno.
    destruct (run h (materialise b p d delim opts ≫= publish p v) w3) as [[r w4] tr].
    simpl in *. unfold cache_hit. simpl. by rewrite Hno.
  - done.
Qed.

#[local] Opaque after_ensure.

Lemma ingest_hit_shape w b p d v delim opts :
  let r := run h (ingest_file_to_datalake b p d v delim opts) w in
  cache_hit (trace r) = true ->
  exists pre,
    (pre = [BucketExists d] \/ pre = [BucketExists d; BucketMake d]) /\
    ((calls r = pre ++ [ObjectExists d (parquet_object_name p);
                        ReadParquet (artifact_path d p)]
      /\ exists e, outcome r = Raise e)
     \/ exists df, calls r = pre ++ [ObjectExists d (parquet_object_name p);
                                     ReadParquet (artifact_path d p);
                                     CreateOrReplaceTempView df (view_name p v)]).
Proof.
  intros r. subst r. rewrite ingest_eq. unfold calls, trace, outcome. simpl.
  destruct (h (BucketExists d) w) as [[[] |e] w1]; simpl; [| |done].
  - pose proof (after_ensure_hit_shape w1 b p d v delim opts) as Hrest.
    unfold calls, trace, outcome in Hrest.
    destruct (run h (after_ensure b p d v delim opts) w1) as [[r w2] tr]. simpl in *.
    intros Hhit. exists [BucketExists d]. split; [by left|].
    destruct (Hrest Hhit) as [[Hc He]|[df Hc]];
      [left; split; [simpl; f_equal; exact Hc | exact He]
      |right; exists df; simpl; f_equal; exact Hc].
  - destruct (h (BucketMake d) w1) as [[[] |e] w1']; simpl; [|done].
    pose proof (after_ensure_hit_shape w1' b p d v delim opts) as Hrest.
    unfold calls, trace, outcome in Hrest.
    destruct (run h (after_ensure b p d v delim opts) w1') as [[r w2] tr]. simpl in *.
    intros Hhit. exists [BucketExists d; BucketMake d]. split; [by right|].
    destruct (Hrest Hhit) as [[Hc He]|[df Hc]];
      [left; split; [simpl; do 2 f_equal; exact Hc | exact He]
      |right; exists df; simpl; do 2 f_equal; exact Hc].
Qed.

Lemma ingest_split w b p d v delim opts :
  (exists e w1 tr,
      run h (ingest_file_to_datalake b p d v delim opts) w = (Raise e, w1, tr) /\
      (tr = [Ev (BucketExists d) (Raise e)] \/
       tr = [Ev (BucketExists d) (Ok false); Ev (BucketMake d) (Raise e)]))
  \/ (exists w1 pre,
        ensure_events d pre /\
        run h (ingest_file_to_datalake b p d v delim opts) w =
          (outcome (run h (after_ensure b p d v delim opts) w1),
           final (run h (after_ensure b p d v delim opts) w1),
           pre ++ trace (run h (after_ensure b p d v delim opts) w1))).
Proof.
  rewrite ingest_eq. simpl.
  destruct (h (BucketExists d) w) as [[[] |e] w1]; simpl.
  - right. exists w1, [Ev (BucketExists d) (Ok true)]. split; [by left|].
    by destruct (run h (after_ensure b p d v delim opts) w1) as [[r w2] tr].
  - destruct (h (BucketMake d) w1) as [[[] |e] w2]; simpl.
    + right. exists w2, [Ev (BucketExists d) (Ok false); Ev (BucketMake d) (Ok tt)].
      split; [by right|].
      by destruct (run h (after_ensure b p d v delim opts) w2) as [[r w3] tr].
    + left. exists e, w2, [Ev (BucketExists d) (Ok false); Ev (BucketMake d) (Raise e)].
      split; [done|by right].
  - left. exists e, w1, [Ev (BucketExists d) (Raise e)]. split; [done|by left].
Qed.

End IngestPhases.

Section RefFacts.
Import PyStr.

Lemma split_at_slash_join (d k : string) :
  no_slash d = true -> Ref.split_at_slash (d +:+ String "/" k) = Some (d, k).
Proof.
  induction d as [|a d IH]; intros Hd; [reflexivity|].
  simpl in Hd. apply andb_true_iff in Hd as [Ha Hd]. apply negb_true_iff in Ha.
  rewrite append_cons. simpl. by rewrite Ha, (IH Hd).
Qed.

Lemma split_path_join (d k : string) :
  no_slash d = true -> Ref.split_path ("s3a://" +:+ d +:+ "/" +:+ k) = Some (d, k).
Proof.
  intros Hd. unfold Ref.split_path.
  change ("/" +:+ k) with (String "/" k).
  remember (d +:+ String "/" k) as x eqn:Hx.
  change ("s3a://" +:+ x)
    with (String "s" (String "3" (String "a" (String ":" (String "/" (String "/" x)))))).
  unfold Ref.startswith, slice_from. simpl. rewrite Nat.sub_0_r, substring_zero_length.
  assert (H0 : forall y, substring 0 0 y = EmptyString) by (by intros []).
  rewrite H0. simpl. subst x. apply (split_at_slash_join d k Hd).
Qed.

End RefFacts.

(* ===================================================================== *)
(* 13. The ingestion call, the loader and the canonical key               *)
(* ===================================================================== *)

(** C1. Cache-hit idempotence: an ingestion call whose cache check finds
    the canonical Parquet artifact issues no archive-extraction call, no
    CSV read and no Parquet write; its one and only read through the engine
    is the load of that artifact. *)
Theorem cache_hit_only_loads (W : Type) (h : Handler W) (w : W)
    (b p d : string) (v : option string) (delim : string)
    (opts : option (list (string * string))) :
  cache_hit (trace (run h (MinIOSpark.ingest_file_to_datalake b p d v delim opts) w)) = true ->
  Forall (fun c => is_extraction c = false /\ is_csv_read c = false /\ is_persist c = false)
         (calls (run h (MinIOSpark.ingest_file_to_datalake b p d v delim opts) w))
  /\ List.filter is_engine_read
       (calls (run h (MinIOSpark.ingest_file_to_datalake b p d v delim opts) w))
     = [ReadParquet (artifact_path d p)].
Proof.
  intros Hhit. destruct (ingest_hit_shape h w b p d v delim opts Hhit)
    as (pre & Hpre & [[-> _]|[df ->]]);
    destruct Hpre as [-> | ->]; simpl; (split; [repeat constructor | reflexivity]).
Qed.

Lemma cache_hit_only_loads_witness :
  cache_hit (trace (run Scenario.handle
    (MinIOSpark.ingest_file_to_datalake "raw" "rows.csv" "stage" None "," None)
    Scenario.cached_world)) = true
  /\ List.filter is_engine_read (calls (run Scenario.handle
       (MinIOSpark.ingest_file_to_datalake "raw" "rows.csv" "stage" None "," None)
       Scenario.cached_world)) = [ReadParquet (artifact_path "stage" "rows.csv")].
Proof.
  split; [vm_compute; reflexivity|].
  apply (cache_hit_only_loads Ref.World Scenario.handle Scenario.cached_world
           "raw" "rows.csv" "stage" None "," None).
  vm_compute; reflexivity.
Defined.

(* Two addresses with bucket names are equal only for the same bucket and
   the same key. *)
Lemma address_inj (d b k p : string) :
  no_slash d = true -> no_slash b = true ->
  "s3a://" +:+ d +:+ "/" +:+ k = "s3a://" +:+ b +:+ "/" +:+ p -> d = b /\ k = p.
Proof.
  intros Hd Hb Heq. apply (inj (String.app "s3a://")) in Heq.
  change ("/" +:+ k) with (String "/" k) in Heq.
  change ("/" +:+ p) with (String "/" p) in Heq.
  apply (f_equal Ref.split_at_slash) in Heq.
  rewrite (split_at_slash_join d k Hd), (split_at_slash_join b p Hb) in Heq.
  by injection Heq as -> ->.
Qed.

(** C10, as the source has it.  An ingestion call whose cache check finds
    the artifact reads no stored data but the canonical artifact, and
    writes no object; so it does not read the source object unless that
    object is the artifact itself, which is the case exactly when the
    source bucket is the destination bucket and the source key is its own
    canonical key (as for "x.parquet" ingested into its own bucket).  The
    one store mutation the call can make is creating the destination
    bucket, and that comes before the cache check.  On the reference store
    the call returns the cached table whatever the source bucket holds
    (also nothing), and leaves objects and datasets as they were. *)
Theorem cache_hit_frame :
  (forall (W : Type) (h : Handler W) (w : W) (b p d : string) (v : option string)
          (delim : string) (opts : option (list (string * string))),
      cache_hit (trace (run h (MinIOSpark.ingest_file_to_datalake b p d v delim opts) w)) = true ->
      Forall (fun c => reads_source c = false /\ is_storage_write c = false)
             (calls (run h (MinIOSpark.ingest_file_to_datalake b p d v delim opts) w))
      /\ (exists pre post,
           calls (run h (MinIOSpark.ingest_file_to_datalake b p d v delim opts) w)
             = pre ++ ObjectExists d (MinIOSpark.parquet_object_name p) :: post
           /\ Forall (fun c => is_mutation c = true -> c = BucketMake d) pre
           /\ Forall (fun c => is_mutation c = false) post)
      /\ Forall (fun c => reads_source_object b p c = true ->
                          c = ReadParquet (artifact_path d p)
                          /\ artifact_path d p = source_address b p)
             (calls (run h (MinIOSpark.ingest_file_to_datalake b p d v delim opts) w))
      /\ (artifact_path d p <> source_address b p ->
          forallb (fun c => negb (reads_source_object b p c))
            (calls (run h (MinIOSpark.ingest_file_to_datalake b p d v delim opts) w)) = true))
  /\ (forall b p d : string,
        no_slash d = true -> no_slash b = true ->
        (artifact_path d p = source_address b p
         <-> d = b /\ MinIOSpark.parquet_object_name p = p))
  /\ (forall (unzip : bytes -> option (list (string * bytes))) (w : Ref.World)
             (b p d : string) (v : option string) (delim : string)
             (opts : option (list (string * string))) (df : DataFrame),
        no_slash d = true ->
        Ref.datasets w !! (d, MinIOSpark.parquet_object_name p) = Some df ->
        outcome (run (Ref.handle unzip)
                   (MinIOSpark.ingest_file_to_datalake b p d v delim opts) w) = Ok df
        /\ Ref.objects (final (run (Ref.handle unzip)
                   (MinIOSpark.ingest_file_to_datalake b p d v delim opts) w)) = Ref.objects w
        /\ Ref.datasets (final (run (Ref.handle unzip)
                   (MinIOSpark.ingest_file_to_datalake b p d v delim opts) w)) = Ref.datasets w).
Proof.
  split; [|split].
  - intros W h w b p d v delim opts Hhit.
    assert (Hread : forall c,
      reads_source_object b p (ReadParquet (artifact_path d p)) = true ->
      c = ReadParquet (artifact_path d p) ->
      c = ReadParquet (artifact_path d p) /\ artifact_path d p = source_address b p).
    { intros c Heq ->. split; [done|]. by apply String.eqb_eq in Heq. }
    assert (Hnot : artifact_path d p <> source_address b p ->
                   negb (reads_source_object b p (ReadParquet (artifact_path d p))) = true).
    { intros Hne. apply negb_true_iff.
      change (String.eqb (artifact_path d p) (source_address b p) = false).
      by apply String.eqb_neq. }
    destruct (ingest_hit_shape h w b p d v delim opts Hhit)
      as (pre & Hpre & [[-> _]|[df ->]]).
    + split; [destruct Hpre as [-> | ->]; repeat constructor|].
      split.
      { exists pre, [ReadParquet (artifact_path d p)]. split; [done|]. split.
        - destruct Hpre as [-> | ->]; repeat constructor; simpl; congruence.
        - repeat constructor. }
      split.
      * destruct Hpre as [-> | ->]; cbn [app];
          repeat first [apply List.Forall_nil
                       |apply List.Forall_cons;
                        [first [intros Hc; by apply Hread
                               |intros Hc; cbn in Hc; discriminate Hc]|]].
      * intros Hne. specialize (Hnot Hne).
        destruct Hpre as [-> | ->]; simpl in *; by rewrite Hnot.
    + split; [destruct Hpre as [-> | ->]; repeat constructor|].
      split.
      { exists pre, [ReadParquet (artifact_path d p);
                     CreateOrReplaceTempView df (MinIOSpark.view_name p v)].
        split; [done|]. split.
        - destruct Hpre as [-> | ->]; repeat constructor; simpl; congruence.
        - repeat constructor. }
      split.
      * destruct Hpre as [-> | ->]; cbn [app];
          repeat first [apply List.Forall_nil
                       |apply List.Forall_cons;
                        [first [intros Hc; by apply Hread
                               |intros Hc; cbn in Hc; discriminate Hc]|]].
      * intros Hne. specialize (Hnot Hne).
        destruct Hpre as [-> | ->]; simpl in *; by rewrite Hnot.
  - intros b p d Hd Hb. unfold artifact_path, source_address. split.
    + by apply address_inj.
    + by intros [-> ->].
  - intros unzip w b p d v delim opts df Hd Hds.
    rewrite ingest_eq. unfold after_ensure, artifact_path, outcome, final. simpl.
    destruct (bool_decide (d ∈ Ref.buckets w)); simpl;
      rewrite Hds; simpl; rewrite orb_true_r; simpl;
      rewrite (split_path_join d _ Hd); simpl; rewrite Hds; simpl; done.
Qed.

Lemma cache_hit_frame_witness :
  (Forall (fun c => reads_source c = false /\ is_storage_write c = false)
     (calls (run Scenario.handle
        (MinIOSpark.ingest_file_to_datalake "raw" "rows.csv" "stage" None "," None)
        Scenario.cached_world))
   /\ forallb (fun c => negb (reads_source_object "raw" "rows.csv" c))
        (calls (run Scenario.handle
           (MinIOSpark.ingest_file_to_datalake "raw" "rows.csv" "stage" None "," None)
           Scenario.cached_world)) = true)
  /\ (artifact_path "stage" "x.parquet" = source_address "stage" "x.parquet")
  /\ outcome (run Scenario.handle
       (MinIOSpark.ingest_file_to_datalake "raw" "rows.csv" "stage" None "," None)
       Scenario.cached_world) = Ok Scenario.three_rows.
Proof.
  split; [|split].
  - destruct (proj1 cache_hit_frame Ref.World Scenario.handle Scenario.cached_world
                "raw" "rows.csv" "stage" None "," None) as (Hkind & _ & _ & Hnone);
      [vm_compute; reflexivity|].
    split; [exact Hkind|]. apply Hnone. vm_compute. discriminate.
  - apply (proj1 (proj2 cache_hit_frame) "stage" "x.parquet" "stage");
      [reflexivity | reflexivity | split; reflexivity].
  - apply (proj2 (proj2 cache_hit_frame) Scenario.unzip Scenario.cached_world
             "raw" "rows.csv" "stage" None "," None Scenario.three_rows);
      vm_compute; reflexivity.
Defined.

(* In bucket stage, x.parquet is its own canonical artifact: the load of
   the cache hit reads the source object. *)
Lemma cache_hit_reads_aliased_source :
  ~ source_never_read_on_hit Scenario.handle Alias.world
      "stage" "x.parquet" "stage" None "," None.
Proof.
  intros Hnever. assert (Hhit : cache_hit (trace (run Scenario.handle
    (MinIOSpark.ingest_file_to_datalake "stage" "x.parquet" "stage" None "," None)
    Alias.world)) = true) by (vm_compute; reflexivity).
  specialize (Hnever Hhit). vm_compute in Hnever. discriminate Hnever.
Qed.

Lemma cache_miss_app (tr1 tr2 : list Event) :
  cache_miss (tr1 ++ tr2) = cache_miss tr1 || cache_miss tr2.
Proof. apply existsb_app. Qed.

(** C9. Classification by suffix is total and case-sensitive: an ingestion
    call whose cache check finds nothing expands the source as an archive
    exactly when the source key ends in ".zip", and otherwise loads the
    source address directly; keys ending in ".csv" or ".ZIP" and keys
    without extension are loaded directly. *)
Theorem classification_by_suffix :
  (forall (W : Type) (h : Handler W) (w : W) (b p d : string) (v : option string)
          (delim : string) (opts : option (list (string * string))),
      cache_miss (trace (run h (MinIOSpark.ingest_file_to_datalake b p d v delim opts) w)) = true ->
      branch_taken (calls (run h (MinIOSpark.ingest_file_to_datalake b p d v delim opts) w))
      = Some (if PyStr.endswith p ".zip" then EXPAND b p
              else DIRECT ("s3a://" +:+ b +:+ "/" +:+ p)))
  /\ PyStr.endswith "batch.zip" ".zip" = true
  /\ PyStr.endswith "batch.csv" ".zip" = false
  /\ PyStr.endswith "batch.ZIP" ".zip" = false
  /\ PyStr.endswith "batch" ".zip" = false
  /\ PyStr.endswith "" ".zip" = false.
Proof.
  split; [|repeat split].
  intros W h w b p d v delim opts.
  destruct (ingest_split h w b p d v delim opts)
    as [(e & w1 & tr & -> & [-> | ->]) | (w1 & pre & Hpre & ->)]; [done..|].
  unfold calls, trace, outcome, final. simpl. rewrite cache_miss_app, fmap_app.
  assert (Hskip : cache_miss pre = false /\
                  forall cs, branch_taken ((ev_call <$> pre) ++ cs) = branch_taken cs)
    by (destruct Hpre as [-> | ->]; done).
  destruct Hskip as [-> Hskip]. rewrite Hskip. clear Hskip Hpre pre. simpl.
  unfold after_ensure. simpl.
  destruct (h (ObjectExists d (MinIOSpark.parquet_object_name p)) w1) as [[[] |e] w2];
    simpl; [| |done].
  - destruct (h (ReadParquet _) w2) as [[df|e] w3]; simpl; [|done].
    by destruct (h (CreateOrReplaceTempView df _) w3) as [[[]|e] w4].
  - intros _. unfold materialise. destruct (PyStr.endswith p ".zip"); simpl.
    + destruct (h (GetObject b p) w2) as [[buf|e] w3]; simpl; [|done].
      destruct (h (ZipNamelist buf) w3) as [[names|e] w4]; simpl; [|done].
      by destruct (run h _ w4) as [[r w5] tr].
    + destruct (h (ReaderLoad _ _) w2) as [[df|e] w3]; simpl; [|done].
      destruct (h (WriteParquet df _ _) w3) as [[[]|e] w4]; simpl; [|done].
      destruct (h (ReadParquet _) w4) as [[df'|e] w5]; simpl; [|done].
      by destruct (h (CreateOrReplaceTempView df' _) w5) as [[[]|e] w6].
Qed.

Lemma classification_by_suffix_witness :
  branch_taken (calls (run Scenario.handle
    (MinIOSpark.ingest_file_to_datalake "raw" "batch.zip" "stage" None "," None)
    Scenario.zip_world)) = Some (EXPAND "raw" "batch.zip")
  /\ branch_taken (calls (run Scenario.handle
    (MinIOSpark.ingest_file_to_datalake "raw" "rows.csv" "stage" None "," None)
    Scenario.csv_world)) = Some (DIRECT "s3a://raw/rows.csv").
Proof.
  split.
  - apply (proj1 classification_by_suffix Ref.World Scenario.handle Scenario.zip_world
             "raw" "batch.zip" "stage" None "," None).
    vm_compute; reflexivity.
  - apply (proj1 classification_by_suffix Ref.World Scenario.handle Scenario.csv_world
             "raw" "rows.csv" "stage" None "," None).
    vm_compute; reflexivity.
Defined.

Section Publication.
Context {W : Type} (h : Handler W).

(* What the calls outside [P] leave alone is as it was after the run. *)
Lemma run_preserves {A X : Type} (P : Call -> Prop) (f : W -> X) (p : Prog A) (w : W) :
  (forall c w0, P c -> f (h c w0).2 = f w0) ->
  all_calls P p -> f (final (run h p w)) = f w.
Proof.
  intros Hh. revert w. induction p as [a|c k IH]; intros w; unfold final; simpl; [done|].
  intros [Hc Hk]. specialize (Hh c w Hc).
  destruct (h c w) as [[x|e] w1]; simpl in *; [|done].
  specialize (IH x w1 (Hk x)). unfold final in IH.
  destruct (run h (k x) w1) as [[r w2] tr]. simpl in *. congruence.
Qed.

Lemma no_view_events {A : Type} (p : Prog A) (w : W) :
  all_calls (fun c => is_view c = false) p ->
  Forall (fun ev => is_view (ev_call ev) = false) (trace (run h p w)).
Proof.
  intros Hp. pose proof (all_calls_run h _ p w Hp) as Hf. unfold calls in Hf.
  by apply Forall_fmap in Hf.
Qed.

(* A run of the whole method, in terms of its two parts. *)
Lemma run_ingest w b p d v delim opts :
  run h (MinIOSpark.ingest_file_to_datalake b p d v delim opts) w =
    match run h (obtain b p d delim opts) w with
    | (Ok df, w1, tr) =>
        match h (CreateOrReplaceTempView df (MinIOSpark.view_name p v)) w1 with
        | (Ok u, w2) =>
            (Ok df, w2, tr ++ [Ev (CreateOrReplaceTempView df (MinIOSpark.view_name p v)) (Ok u)])
        | (Raise e, w2) =>
            (Raise e, w2,
             tr ++ [Ev (CreateOrReplaceTempView df (MinIOSpark.view_name p v)) (Raise e)])
        end
    | (Raise e, w1, tr) => (Raise e, w1, tr)
    end.
Proof.
  rewrite run_ingest_obtain_publish, run_bind.
  destruct (run h (obtain b p d delim opts) w) as [[[df|e] w1] tr]; [|done].
  simpl. by destruct (h (CreateOrReplaceTempView df _) w1) as [[[]|e] w2].
Qed.

End Publication.

(** C6. View publication: an ingestion call that returns a table, on a
    cache hit or a miss, ends by registering a view over that very table;
    the view is named by temp_view_name when given and by the source key
    without its extension otherwise ("orders/2024.csv" gives "orders/2024");
    on the reference engine the name then denotes the returned table,
    whatever it denoted before. *)
Theorem view_published :
  (forall (W : Type) (h : Handler W) (w : W) (b p d : string) (v : option string)
          (delim : string) (opts : option (list (string * string))) (df : DataFrame),
      outcome (run h (MinIOSpark.ingest_file_to_datalake b p d v delim opts) w) = Ok df ->
      last (trace (run h (MinIOSpark.ingest_file_to_datalake b p d v delim opts) w))
      = Some (Ev (CreateOrReplaceTempView df (MinIOSpark.view_name p v)) (Ok tt)))
  /\ (forall p n, MinIOSpark.view_name p (Some n) = n)
  /\ (forall p, MinIOSpark.view_name p None = (OsPath.splitext p).1)
  /\ MinIOSpark.view_name "orders/2024.csv" None = "orders/2024"
  /\ (forall (unzip : bytes -> option (list (string * bytes))) (w : Ref.World)
             (b p d : string) (v : option string) (delim : string)
             (opts : option (list (string * string))) (df : DataFrame),
        outcome (run (Ref.handle unzip)
                   (MinIOSpark.ingest_file_to_datalake b p d v delim opts) w) = Ok df ->
        Ref.views (final (run (Ref.handle unzip)
                   (MinIOSpark.ingest_file_to_datalake b p d v delim opts) w))
          !! MinIOSpark.view_name p v = Some df).
Proof.
  split; [|repeat split].
  - intros W h w b p d v delim opts df. rewrite run_ingest.
    destruct (run h (obtain b p d delim opts) w) as [[[df'|e] w1] tr]; [|done].
    destruct (h (CreateOrReplaceTempView df' _) w1) as [[[]|e] w2]; [|done].
    unfold outcome, trace. simpl. intros [= ->]. apply last_snoc.
  - intros unzip w b p d v delim opts df. rewrite run_ingest.
    destruct (run (Ref.handle unzip) (obtain b p d delim opts) w) as [[[df'|e] w1] tr];
      [|done].
    unfold outcome, final. simpl. intros [= ->]. apply lookup_insert_eq.
Qed.

Lemma view_published_witness :
  last (trace (run Scenario.handle
    (MinIOSpark.ingest_file_to_datalake "raw" "rows.csv" "stage" None "," None)
    Scenario.csv_world))
  = Some (Ev (CreateOrReplaceTempView Scenario.three_rows "rows") (Ok tt))
  /\ Ref.views (final (run Scenario.handle
       (MinIOSpark.ingest_file_to_datalake "raw" "rows.csv" "stage" (Some "t") "," None)
       Scenario.cached_world)) !! "t" = Some Scenario.three_rows.
Proof.
  split.
  - apply (proj1 view_published Ref.World Scenario.handle Scenario.csv_world
             "raw" "rows.csv" "stage" None "," None Scenario.three_rows).
    vm_compute; reflexivity.
  - apply (proj2 (proj2 (proj2 (proj2 view_published))) Scenario.unzip Scenario.cached_world
             "raw" "rows.csv" "stage" (Some "t") "," None Scenario.three_rows).
    vm_compute; reflexivity.
Defined.

(** C7. No partial publish on failure: when any collaborator call of an
    ingestion call raises an exception, the call ends with that very
    exception; the raising call is the last one, every call before it
    returned, and none of those was a view registration: the call
    registered no view.  On the reference engine the views are as they
    were before the call. *)
Theorem no_partial_publish :
  (forall (W : Type) (h : Handler W) (w : W) (b p d : string) (v : option string)
          (delim : string) (opts : option (list (string * string))) (e : Exn),
      some_call_raised e
        (trace (run h (MinIOSpark.ingest_file_to_datalake b p d v delim opts) w)) = true ->
      outcome (run h (MinIOSpark.ingest_file_to_datalake b p d v delim opts) w) = Raise e
      /\ exists c tr,
        trace (run h (MinIOSpark.ingest_file_to_datalake b p d v delim opts) w)
          = tr ++ [Ev c (Raise e)]
        /\ forallb succeeded tr = true
        /\ Forall (fun ev => is_view (ev_call ev) = false) tr)
  /\ (forall (unzip : bytes -> option (list (string * bytes))) (w : Ref.World)
             (b p d : string) (v : option string) (delim : string)
             (opts : option (list (string * string))) (e : Exn),
        outcome (run (Ref.handle unzip)
                   (MinIOSpark.ingest_file_to_datalake b p d v delim opts) w) = Raise e ->
        Ref.views (final (run (Ref.handle unzip)
                   (MinIOSpark.ingest_file_to_datalake b p d v delim opts) w)) = Ref.views w).
Proof.
  split.
  - intros W h w b p d v delim opts e Hraised.
    assert (Hgen : forall e', outcome (run h (MinIOSpark.ingest_file_to_datalake
                                                b p d v delim opts) w) = Raise e' ->
      exists c tr,
        trace (run h (MinIOSpark.ingest_file_to_datalake b p d v delim opts) w)
          = tr ++ [Ev c (Raise e')]
        /\ forallb succeeded tr = true
        /\ Forall (fun ev => is_view (ev_call ev) = false) tr).
    { intros e'. rewrite run_ingest.
      pose proof (no_view_events h (obtain b p d delim opts) w
                    (obtain_calls b p d delim opts)) as Hnv.
      pose proof (run_raise_last h (obtain b p d delim opts) w) as Hlast.
      pose proof (run_ok_succeeded h (obtain b p d delim opts) w) as Hok.
      unfold outcome, trace in *.
      destruct (run h (obtain b p d delim opts) w) as [[[df|e''] w1] tr]; simpl in *.
      + destruct (h (CreateOrReplaceTempView df _) w1) as [[[]|e''] w2]; simpl; [done|].
        intros [= ->]. exists (CreateOrReplaceTempView df (MinIOSpark.view_name p v)), tr.
        split; [done|]. split; [by apply (Hok df)|done].
      + intros [= ->]. destruct (Hlast e' eq_refl) as (c & tr' & -> & Hs).
        exists c, tr'. split; [done|]. split; [done|].
        by apply Forall_app in Hnv as [Hnv _]. }
    apply existsb_exists in Hraised as (ev & Hin & Hev). apply bool_decide_eq_true in Hev.
    destruct (outcome (run h (MinIOSpark.ingest_file_to_datalake b p d v delim opts) w))
      as [df|e'] eqn:Hout.
    + apply run_ok_succeeded in Hout. rewrite forallb_forall in Hout.
      specialize (Hout ev Hin). unfold succeeded, raised in *.
      by destruct (ev_result ev).
    + destruct (Hgen e' eq_refl) as (c & tr & Htr & Hs & Hnv).
      assert (e' = e) as ->; [|split; [done|by exists c, tr]].
      rewrite Htr in Hin. apply in_app_or in Hin as [Hin|[<-|[]]].
      * rewrite forallb_forall in Hs. specialize (Hs ev Hin).
        unfold succeeded, raised in *. by destruct (ev_result ev).
      * unfold raised in Hev. simpl in Hev. congruence.
  - intros unzip w b p d v delim opts e. rewrite run_ingest.
    pose proof (run_preserves (Ref.handle unzip) (fun c => is_view c = false) Ref.views
                  (obtain b p d delim opts) w) as Hpres.
    unfold outcome, final in *.
    destruct (run (Ref.handle unzip) (obtain b p d delim opts) w) as [[[df|e'] w1] tr];
      simpl in *; [done|].
    intros _. apply Hpres; [|apply obtain_calls].
    intros c w0 Hc. destruct c; try done; simpl;
      repeat (match goal with |- context [match ?x with _ => _ end] => destruct x end;
              simpl); done.
Qed.

Lemma no_partial_publish_witness :
  (outcome (run Scenario.handle
      (MinIOSpark.ingest_file_to_datalake "raw" "absent.csv" "stage" None "," None)
      Scenario.csv_world) = Raise EngineLoadError
   /\ exists c tr,
      trace (run Scenario.handle
        (MinIOSpark.ingest_file_to_datalake "raw" "absent.csv" "stage" None "," None)
        Scenario.csv_world) = tr ++ [Ev c (Raise EngineLoadError)]
      /\ forallb succeeded tr = true
      /\ Forall (fun ev => is_view (ev_call ev) = false) tr)
  /\ Ref.views (final (run Scenario.handle
        (MinIOSpark.ingest_file_to_datalake "raw" "absent.csv" "stage" None "," None)
        Scenario.csv_world)) = Ref.views Scenario.csv_world.
Proof.
  split.
  - apply (proj1 no_partial_publish Ref.World Scenario.handle Scenario.csv_world
             "raw" "absent.csv" "stage" None "," None EngineLoadError).
    vm_compute; reflexivity.
  - apply (proj2 no_partial_publish Scenario.unzip Scenario.csv_world
             "raw" "absent.csv" "stage" None "," None EngineLoadError).
    vm_compute; reflexivity.
Defined.

Section LoaderOptions.

Lemma foldl_option_format (r : DataFrameReader) (o : list (string * string)) :
  format (foldl (fun r kv => option_ kv.1 kv.2 r) r o) = format r.
Proof. revert r. induction o as [|[k x] o IH]; intros r; simpl; [done|]. by rewrite IH. Qed.

Lemma foldl_option_options (r : DataFrameReader) (o : list (string * string)) :
  options (foldl (fun r kv => option_ kv.1 kv.2 r) r o) = options r ++ o.
Proof.
  revert r. induction o as [|[k x] o IH]; intros r; simpl.
  - by rewrite app_nil_r.
  - rewrite IH. simpl. by rewrite <- app_assoc.
Qed.

Lemma effective_snoc (key value : string) (o : list (string * string)) :
  effective key (o ++ [(key, value)]) = Some value.
Proof.
  induction o as [|[k x] o IH]; simpl.
  - by rewrite String.eqb_refl.
  - by rewrite IH.
Qed.

End LoaderOptions.

(** C8. Loader option handling: read_csv_to_dataframe issues one load, at
    the address "s3a://{bucket}/{prefix}", with the declared format; the
    options it sets are the caller's, in order, or header=true and
    inferSchema=true when the caller supplies none, followed by the
    delimiter option, which is set last and so is the delimiter in effect
    also when the caller's options name one. *)
Theorem loader_option_handling (bucket prefix delimiter format_source : string)
    (option_args : option (list (string * string))) :
  exists reader,
    MinIOSpark.read_csv_to_dataframe bucket prefix delimiter format_source option_args
      = call (ReaderLoad reader ("s3a://" +:+ bucket +:+ "/" +:+ prefix))
    /\ format reader = format_source
    /\ options reader
       = match option_args with
         | None => [("header", "true"); ("inferSchema", "true")]
         | Some o => o
         end ++ [("delimiter", delimiter)]
    /\ last (options reader) = Some ("delimiter", delimiter)
    /\ effective "delimiter" (options reader) = Some delimiter.
Proof.
  unfold MinIOSpark.read_csv_to_dataframe. eexists. split; [reflexivity|].
  assert (Hopts : forall o,
    options (option_ "delimiter" delimiter
               (foldl (fun r kv => option_ kv.1 kv.2 r) (read_format format_source) o))
    = o ++ [("delimiter", delimiter)]).
  { intros o. simpl. by rewrite foldl_option_options. }
  split; [simpl; apply foldl_option_format|].
  rewrite Hopts. split; [by destruct option_args|].
  split; [apply last_snoc | apply effective_snoc].
Qed.

Example loader_overrides_caller_delimiter :
  MinIOSpark.read_csv_to_dataframe "raw" "rows.csv" ";" "csv"
    (Some [("delimiter", "|"); ("header", "false")])
  = call (ReaderLoad {| format := "csv";
                        options := [("delimiter", "|"); ("header", "false");
                                    ("delimiter", ";")] |}
            "s3a://raw/rows.csv").
Proof. reflexivity. Qed.

Section Extension.
Import PyStr OsPath.

(* rfind finds nothing, or the last occurrence. *)
Lemma rfind_from_spec (c : ascii) (s : string) (i : Z) :
  0 <= i ->
  (rfind_from c s i = -1 /\ no_char c s = true)
  \/ (exists k rest, rfind_from c s i = i + Z.of_nat k
                     /\ slice_from k s = String c rest /\ no_char c rest = true).
Proof.
  revert i. induction s as [|a s IH]; intros i Hi; simpl; [by left|].
  destruct (IH (i + 1) ltac:(lia)) as [[-> Hno] | (k & rest & -> & Hk & Hrest)].
  - simpl. destruct (Ascii.eqb_spec a c) as [->|Hne].
    + right. exists 0%nat, s. split; [lia|]. split; [|done].
      unfold slice_from. simpl. f_equal. apply substring_zero_length.
    + left. split; [done|]. simpl. rewrite Hno.
      by destruct (Ascii.eqb_spec a c).
  - right. exists (S k), rest. destruct (0 <=? i + 1 + Z.of_nat k) eqn:E; [|lia].
    split; [lia|]. by split.
Qed.

(* Beyond the index rfind returns there is no occurrence. *)
Lemma rfind_from_beyond (c : ascii) (s : string) (i : Z) (k : nat) :
  0 <= i -> rfind_from c s i < i + Z.of_nat k -> no_char c (slice_from k s) = true.
Proof.
  revert i k. induction s as [|a s IH]; intros i k Hi Hlt.
  - by destruct k.
  - destruct k as [|k].
    + destruct (rfind_from_spec c (String a s) i Hi)
        as [[_ Hno] | (k & rest & Hr & _)]; [|lia].
      unfold slice_from. by rewrite Nat.sub_0_r, substring_zero_length.
    + simpl in Hlt. change (slice_from (S k) (String a s)) with (slice_from k s).
      apply (IH (i + 1)); [lia|].
      destruct (0 <=? rfind_from c s (i + 1)) eqn:E; [lia|].
      destruct (rfind_from_spec c s (i + 1) ltac:(lia))
        as [[-> _] | (k' & rest & Hr & _)]; lia.
Qed.

Lemma splitext_loop_ext p dotIndex filenameIndex fuel r :
  splitext_loop p dotIndex filenameIndex fuel = Some r -> r.2 = slice_from dotIndex p.
Proof.
  revert filenameIndex. induction fuel as [|fuel IH]; intros fi; simpl; [done|].
  destruct (String.get fi p) as [a|]; [|by intros [= <-]].
  destruct (Ascii.eqb_spec a "."%char) as [->|Hne]; [apply IH|].
  destruct a as [[] [] [] [] [] [] [] []]; try (by intros [= <-]); apply IH.
Qed.

(* The extension is empty, or a dot followed by characters other than
   "." and "/". *)
Lemma splitext_ext_shape (p : string) :
  (splitext p).2 = EmptyString
  \/ exists rest, (splitext p).2 = String "." rest
                  /\ no_char "." rest = true /\ no_char "/" rest = true.
Proof.
  unfold splitext. destruct (rfind "/" p <? rfind "." p) eqn:Hlt; [|by left].
  apply Z.ltb_lt in Hlt.
  destruct (splitext_loop _ _ _ _) as [r|] eqn:E; [|by left].
  apply splitext_loop_ext in E. right.
  unfold rfind in *.
  assert (Hsep : -1 <= rfind_from "/" p 0).
  { destruct (rfind_from_spec "/" p 0 ltac:(lia)) as [[-> _] | (k & rest & -> & _)]; lia. }
  destruct (rfind_from_spec "." p 0 ltac:(lia)) as [[Hr _] | (k & rest & Hr & Hk & Hrest)];
    [lia|].
  rewrite Hr in *. replace (Z.to_nat (0 + Z.of_nat k)) with k in E by lia.
  exists rest. rewrite E, Hk. split; [done|]. split; [done|].
  pose proof (rfind_from_beyond "/" p 0 k ltac:(lia) ltac:(lia)) as Hno.
  rewrite Hk in Hno. simpl in Hno. exact Hno.
Qed.

End Extension.

Lemma ingest_addresses_artifact b p d v delim opts :
  all_calls (addresses_artifact d p) (MinIOSpark.ingest_file_to_datalake b p d v delim opts).
Proof.
  assert (Hrest : all_calls (addresses_artifact d p) (after_ensure b p d v delim opts)).
  { unfold after_ensure. simpl. split; [done|]. intros [|]; [by simpl|].
    apply (all_calls_bind _ (materialise b p d delim opts)); [|by intros df].
    unfold materialise. apply all_calls_bind; [|by intros df].
    destruct (PyStr.endswith p ".zip"); [|by simpl].
    apply all_calls_bind; [|by intros _].
    eapply all_calls_mono; [|apply extract_and_upload_zip_calls]. by intros []. }
  rewrite ingest_eq. simpl. split; [done|]. intros [|]; simpl; [exact Hrest|].
  split; [done|]. intros []. exact Hrest.
Qed.

(** C2. Deterministic canonical key derivation: the derived key is the
    source key with its extension, as os.path.splitext cuts it (empty, or a
    last dot followed by characters other than "." and "/"), replaced by
    ".parquet"; "sales/jan.csv" derives "sales/jan.parquet".  It is a
    function of the source key alone: in every ingestion call, whatever the
    collaborators answer and whatever the other arguments, each call that
    names the artifact names (destination bucket, derived key). *)
Theorem canonical_key_derivation :
  (forall p : string,
      (OsPath.splitext p).1 +:+ (OsPath.splitext p).2 = p
      /\ MinIOSpark.parquet_object_name p = (OsPath.splitext p).1 +:+ ".parquet"
      /\ ((OsPath.splitext p).2 = EmptyString
          \/ exists rest, (OsPath.splitext p).2 = String "." rest
                          /\ no_char "." rest = true /\ no_char "/" rest = true))
  /\ MinIOSpark.parquet_object_name "sales/jan.csv" = "sales/jan.parquet"
  /\ (forall (W : Type) (h : Handler W) (w : W) (b p d : string) (v : option string)
             (delim : string) (opts : option (list (string * string))),
        Forall (addresses_artifact d p)
          (calls (run h (MinIOSpark.ingest_file_to_datalake b p d v delim opts) w))).
Proof.
  split; [|split; [reflexivity|]].
  - intros p. split; [apply splitext_join|]. split; [reflexivity|apply splitext_ext_shape].
  - intros W h w b p d v delim opts. apply all_calls_run, ingest_addresses_artifact.
Qed.

(* ===================================================================== *)
(* 14. Batch expansion                                                    *)
(* ===================================================================== *)

Section Batch.
Context {W : Type} (h : Handler W).

Lemma entry_calls_not_get (cs : list Call) :
  Forall (fun c => is_entry_call c = true) cs -> List.filter is_get cs = [].
Proof.
  induction 1 as [|c cs Hc _ IH]; simpl; [done|]. rewrite IH. by destruct c.
Qed.

Lemma extract_started (m : MinioObject.t) (dst : option MinioObject.t) (etb : bool) (w : W) :
  started (calls (run h (MinIOSpark.extract_and_upload_zip m dst etb) w))
  = [GetObject (MinioObject.bucket_name m) (MinioObject.name m)].
Proof.
  unfold started, calls, trace, MinIOSpark.extract_and_upload_zip. simpl.
  destruct (h (GetObject _ _) w) as [[buf|e] w1]; simpl; [|done].
  destruct (h (ZipNamelist buf) w1) as [[names|e] w2]; simpl; [|done].
  pose proof (all_calls_run h _ _ w2
    (upload_entries_calls m buf (MinIOSpark.destination_prefix_of m dst etb) names []))
    as Hf.
  apply entry_calls_not_get in Hf. unfold calls, trace in Hf.
  destruct (run h _ w2) as [[r w3] tr]. simpl in *. f_equal. exact Hf.
Qed.

Lemma run_bind_discard {A : Type} (p : Prog A) (w : W) :
  run h (p ≫= (fun _ => mret tt)) w =
    match run h p w with
    | (Ok _, w', tr) => (Ok tt, w', tr)
    | (Raise e, w', tr) => (Raise e, w', tr)
    end.
Proof.
  rewrite run_bind. destruct (run h p w) as [[[a|e] w'] tr]; [|done].
  simpl. by rewrite app_nil_r.
Qed.

Lemma started_app (cs1 cs2 : list Call) : started (cs1 ++ cs2) = started cs1 ++ started cs2.
Proof. apply List.filter_app. Qed.

Lemma expand_each_started (bucket : string) (objects : list string) (etb : bool) (w : W) :
  exists rest,
    listed_archives bucket objects
      = started (calls (run h (MinIOSpark.expand_each bucket objects etb) w)) ++ rest
    /\ (forall u, outcome (run h (MinIOSpark.expand_each bucket objects etb) w) = Ok u ->
        rest = []).
Proof.
  revert w. induction objects as [|obj objects IH]; intros w.
  - exists []. by split.
  - unfold listed_archives. cbn [List.filter].
    change (MinIOSpark.expand_each bucket (obj :: objects) etb)
      with ((if PyStr.endswith obj ".zip"
             then MinIOSpark.extract_and_upload_zip (MinioObject.mk bucket obj) None etb
                  ≫= (fun _ => mret tt)
             else mret tt)
            ≫= (fun _ => MinIOSpark.expand_each bucket objects etb)).
    destruct (PyStr.endswith obj ".zip").
    + rewrite run_bind, run_bind_discard.
      pose proof (extract_started (MinioObject.mk bucket obj) None etb w) as Hs.
      unfold calls, trace in Hs. cbn [MinioObject.bucket_name MinioObject.name] in Hs.
      destruct (run h (MinIOSpark.extract_and_upload_zip (MinioObject.mk bucket obj)
                         None etb) w) as [[[objs|e] w1] tr]; simpl in *.
      * destruct (IH w1) as (rest & Hl & Hok). exists rest.
        unfold calls, trace, outcome in *.
        destruct (run h (MinIOSpark.expand_each bucket objects etb) w1) as [[r w2] tr'].
        simpl in *. rewrite fmap_app, started_app, Hs. simpl.
        split; [by f_equal|done].
      * exists (listed_archives bucket objects). unfold calls, trace, outcome. simpl.
        rewrite Hs. by split.
    + change (mret tt ≫= (fun _ : unit => MinIOSpark.expand_each bucket objects etb))
        with (MinIOSpark.expand_each bucket objects etb).
      apply IH.
Qed.

End Batch.

(** C5, as the source has it.  extract_and_upload_zip_by_prefix lists the
    objects under the prefix once and starts expanding, in listing order,
    those whose key ends in ".zip": all of them when nothing raises.  An
    exception raised while expanding one archive ends the batch with that
    exception, raised by the last call made; the listed archives after it
    are not expanded. *)
Theorem batch_expansion_stops_at_failure (W : Type) (h : Handler W) (w w1 : W)
    (bucket prefix : string) (extract_to_bucket : bool) (objects : list string) :
  h (ListObjects bucket prefix) w = (Ok objects, w1) ->
  exists rest,
    listed_archives bucket objects
      = started (calls (run h (MinIOSpark.extract_and_upload_zip_by_prefix
                                 bucket prefix extract_to_bucket) w)) ++ rest
    /\ (forall u, outcome (run h (MinIOSpark.extract_and_upload_zip_by_prefix
                                    bucket prefix extract_to_bucket) w) = Ok u -> rest = [])
    /\ (forall e, outcome (run h (MinIOSpark.extract_and_upload_zip_by_prefix
                                    bucket prefix extract_to_bucket) w) = Raise e ->
          exists c tr,
            trace (run h (MinIOSpark.extract_and_upload_zip_by_prefix
                            bucket prefix extract_to_bucket) w) = tr ++ [Ev c (Raise e)]
            /\ forallb succeeded tr = true).
Proof.
  intros Hlist.
  destruct (expand_each_started h bucket objects extract_to_bucket w1) as (rest & Hl & Hok).
  exists rest. split; [|split].
  - unfold MinIOSpark.extract_and_upload_zip_by_prefix, calls, trace. simpl.
    rewrite Hlist. unfold calls, trace in Hl.
    destruct (run h (MinIOSpark.expand_each bucket objects extract_to_bucket) w1)
      as [[r w2] tr]. simpl in *. exact Hl.
  - intros u. unfold MinIOSpark.extract_and_upload_zip_by_prefix, outcome. simpl.
    rewrite Hlist. unfold outcome in Hok.
    destruct (run h (MinIOSpark.expand_each bucket objects extract_to_bucket) w1)
      as [[r w2] tr]. simpl in *. apply Hok.
  - intros e. apply run_raise_last.
Qed.

Lemma batch_expansion_stops_at_failure_witness :
  exists rest,
    listed_archives "raw" ["a.zip"; "batch.zip"]
      = started (calls (run Scenario.handle
                   (MinIOSpark.extract_and_upload_zip_by_prefix "raw" "" false)
                   Scenario.broken_world)) ++ rest
    /\ (forall u, outcome (run Scenario.handle
                   (MinIOSpark.extract_and_upload_zip_by_prefix "raw" "" false)
                   Scenario.broken_world) = Ok u -> rest = [])
    /\ (forall e, outcome (run Scenario.handle
                   (MinIOSpark.extract_and_upload_zip_by_prefix "raw" "" false)
                   Scenario.broken_world) = Raise e ->
          exists c tr,
            trace (run Scenario.handle
                   (MinIOSpark.extract_and_upload_zip_by_prefix "raw" "" false)
                   Scenario.broken_world) = tr ++ [Ev c (Raise e)]
            /\ forallb succeeded tr = true).
Proof.
  apply (batch_expansion_stops_at_failure Ref.World Scenario.handle
           Scenario.broken_world Scenario.broken_world "raw" "" false ["a.zip"; "batch.zip"]).
  vm_compute; reflexivity.
Defined.

(* In bucket raw the first listed archive is unreadable: the batch ends
   there, and batch.zip, listed after it, is never fetched. *)
Lemma batch_expansion_not_isolated :
  ~ expands_every_listed_archive Scenario.handle Scenario.broken_world "raw" "" false.
Proof.
  intros Hall.
  specialize (Hall ["a.zip"; "batch.zip"] Scenario.broken_world eq_refl).
  vm_compute in Hall. discriminate Hall.
Qed.

(* ===================================================================== *)
(* 15. Where an expansion writes, and where the ingestion then reads      *)
(* ===================================================================== *)

(* With extract_to_bucket the prefix is the NAME of the archive's bucket. *)
Lemma destination_prefix_extract_to_bucket (m : MinioObject.t) (dst : option MinioObject.t) :
  MinIOSpark.destination_prefix_of m dst true = MinioObject.bucket_name m.
Proof. reflexivity. Qed.

Lemma destination_prefix_explicit (m d : MinioObject.t) :
  MinIOSpark.destination_prefix_of m (Some d) false = MinioObject.name d.
Proof. reflexivity. Qed.

Lemma destination_prefix_default (m : MinioObject.t) :
  MinIOSpark.destination_prefix_of m None false = (OsPath.splitext (MinioObject.name m)).1.
Proof. reflexivity. Qed.

Lemma upload_entries_writes_below m buf pre path names acc :
  all_calls (writes_below_reads_at (MinioObject.bucket_name m) pre path)
    (MinIOSpark.upload_entries m buf pre names acc).
Proof.
  revert acc. induction names as [|n names IH]; intros acc; simpl; [done|].
  split; [done|]. intros data. split; [by eauto|]. intros []. apply IH.
Qed.

(* An ingestion of an archive writes the entries below the folder named
   after the source bucket and then loads the folder named after the
   archive. *)
Lemma ingest_archive_addresses b p d v delim opts :
  PyStr.endswith p ".zip" = true ->
  all_calls (writes_below_reads_at b b ("s3a://" +:+ b +:+ "/" +:+ (OsPath.splitext p).1))
    (MinIOSpark.ingest_file_to_datalake b p d v delim opts).
Proof.
  intros Hzip.
  assert (Hrest : all_calls
            (writes_below_reads_at b b ("s3a://" +:+ b +:+ "/" +:+ (OsPath.splitext p).1))
            (after_ensure b p d v delim opts)).
  { unfold after_ensure. simpl. split; [done|]. intros [|]; [by simpl|].
    apply (all_calls_bind _ (materialise b p d delim opts)); [|by intros df].
    unfold materialise. rewrite Hzip. apply all_calls_bind; [|by intros df].
    apply all_calls_bind; [|by intros _].
    unfold MinIOSpark.extract_and_upload_zip. simpl. split; [done|]. intros buf.
    split; [done|]. intros names.
    apply (upload_entries_writes_below (MinIOSpark.get_object b p)). }
  rewrite ingest_eq. simpl. split; [done|]. intros [|]; simpl; [exact Hrest|].
  split; [done|]. intros []. exact Hrest.
Qed.

(** C4, at bucket B holding the archive P.zip with entries a.csv and
    sub/b.csv.  With extract_to_bucket the destination prefix is the
    bucket's name, for every archive: the entries are written, byte for
    byte, to the keys "B/a.csv" and "B/sub/b.csv" of bucket B, a folder
    named after the bucket, and nothing is written at the bucket root or
    below "P".  The explicit and the default prefix are the destination
    object's key and the archive key without its extension. *)
Theorem extract_to_bucket_prefix_is_bucket_name :
  (forall m dst, MinIOSpark.destination_prefix_of m dst true = MinioObject.bucket_name m)
  /\ (forall m d, MinIOSpark.destination_prefix_of m (Some d) false = MinioObject.name d)
  /\ (forall m, MinIOSpark.destination_prefix_of m None false
                = (OsPath.splitext (MinioObject.name m)).1)
  /\ outcome (run Scenario.handle
       (MinIOSpark.extract_and_upload_zip (MinioObject.mk "B" "P.zip") None true)
       Scenario.pair_world)
     = Ok [MinioObject.mk "B" "B/a.csv"; MinioObject.mk "B" "B/sub/b.csv"]
  /\ List.filter is_storage_write (calls (run Scenario.handle
       (MinIOSpark.extract_and_upload_zip (MinioObject.mk "B" "P.zip") None true)
       Scenario.pair_world))
     = [PutObject "B" "B/a.csv" "A" 1; PutObject "B" "B/sub/b.csv" "B" 1]
  /\ (fun objs : gmap (string * string) bytes =>
        objs !! ("B", "B/a.csv") = Some "A" /\ objs !! ("B", "B/sub/b.csv") = Some "B"
        /\ objs !! ("B", "a.csv") = None /\ objs !! ("B", "sub/b.csv") = None
        /\ objs !! ("B", "P/a.csv") = None /\ objs !! ("B", "P/sub/b.csv") = None)
     (Ref.objects (final (run Scenario.handle
       (MinIOSpark.extract_and_upload_zip (MinioObject.mk "B" "P.zip") None true)
       Scenario.pair_world))).
Proof.
  split; [exact destination_prefix_extract_to_bucket|].
  split; [exact destination_prefix_explicit|].
  split; [exact destination_prefix_default|].
  repeat split; vm_compute; reflexivity.
Qed.

(** C3, at bucket raw holding batch.zip (one entry, rows.csv, three rows)
    with no bucket stage.  The call creates stage and expands the archive
    with extract_to_bucket, which writes rows.csv to key "raw/rows.csv" of
    bucket raw; it then loads "s3a://raw/batch", where nothing was written.
    On the reference engine the load raises: no artifact stage/batch.parquet
    is produced and no view batch is published.  The two addresses are those
    for every behaviour of the collaborators. *)
Theorem zip_ingestion_reads_where_nothing_was_extracted :
  (forall (W : Type) (h : Handler W) (w : W),
      Forall (writes_below_reads_at "raw" "raw" "s3a://raw/batch")
        (calls (run h (MinIOSpark.ingest_file_to_datalake "raw" "batch.zip" "stage"
                         None "," None) w)))
  /\ calls (run Scenario.handle
       (MinIOSpark.ingest_file_to_datalake "raw" "batch.zip" "stage" None "," None)
       Scenario.zip_world)
     = [BucketExists "stage"; BucketMake "stage"; ObjectExists "stage" "batch.parquet";
        GetObject "raw" "batch.zip"; ZipNamelist Scenario.batch_zip;
        ZipRead Scenario.batch_zip "rows.csv";
        PutObject "raw" "raw/rows.csv" Scenario.rows_csv 17;
        ReaderLoad {| format := "csv";
                      options := [("header", "true"); ("inferSchema", "true");
                                  ("delimiter", ",")] |} "s3a://raw/batch"]
  /\ outcome (run Scenario.handle
       (MinIOSpark.ingest_file_to_datalake "raw" "batch.zip" "stage" None "," None)
       Scenario.zip_world) = Raise EngineLoadError
  /\ (fun w' : Ref.World =>
        Ref.objects w' !! ("raw", "raw/rows.csv") = Some Scenario.rows_csv
        /\ Ref.objects w' !! ("raw", "batch/rows.csv") = None
        /\ Ref.datasets w' !! ("stage", "batch.parquet") = None
        /\ Ref.views w' !! "batch" = None)
     (final (run Scenario.handle
       (MinIOSpark.ingest_file_to_datalake "raw" "batch.zip" "stage" None "," None)
       Scenario.zip_world)).
Proof.
  split.
  - intros W h w. apply all_calls_run.
    apply (ingest_archive_addresses "raw" "batch.zip" "stage" None "," None). reflexivity.
  - repeat split; vm_compute; reflexivity.
Qed.

(* The default policy is the one under which the folder the ingestion loads
   is the folder the expansion writes. *)
Example default_policy_writes_below_archive_name :
  List.filter is_storage_write (calls (run Scenario.handle
    (MinIOSpark.extract_and_upload_zip (MinioObject.mk "raw" "batch.zip") None false)
    Scenario.zip_world))
  = [PutObject "raw" "batch/rows.csv" Scenario.rows_csv 17].
Proof. vm_compute. reflexivity. Qed.

Example read_csv_from_zip_finds_the_rows :
  outcome (run Scenario.handle
    (MinIOSpark.read_csv_from_zip "raw" "batch" "," "csv" None) Scenario.zip_world)
  = Ok Scenario.three_rows.
Proof. vm_compute. reflexivity. Qed.

(* ===================================================================== *)
(* 16. Archive expansion, for every archive and every store               *)
(* ===================================================================== *)

Section Expansion.
Context {W : Type} (h : Handler W).

Lemma upload_entries_ok m buf pre names acc w objs :
  outcome (run h (MinIOSpark.upload_entries m buf pre names acc) w) = Ok objs ->
  uploaded (MinioObject.bucket_name m) pre buf names
    (trace (run h (MinIOSpark.upload_entries m buf pre names acc) w))
  /\ objs = acc ++ ((fun n => MinioObject.mk (MinioObject.bucket_name m) (entry_key pre n))
                      <$> names).
Proof.
  revert acc w. induction names as [|n names IH]; intros acc w; unfold outcome, trace; simpl.
  - intros [= <-]. split; [constructor|by rewrite app_nil_r].
  - destruct (h (ZipRead buf n) w) as [[data|e] w1]; simpl; [|done].
    destruct (h (PutObject _ _ data _) w1) as [[[]|e] w2]; simpl; [|done].
    specialize (IH (acc ++ [MinioObject.mk (MinioObject.bucket_name m) (entry_key pre n)]) w2).
    unfold outcome, trace, entry_key in *.
    destruct (run h (MinIOSpark.upload_entries m buf pre names _) w2) as [[r w3] tr].
    simpl in *. intros Hr. destruct (IH Hr) as [Hup ->]. split.
    + by constructor.
    + by rewrite <- app_assoc.
Qed.

(* The writes made so far are those of the first entries, in order; all of
   them when the upload returns. *)
Lemma upload_entries_written m buf pre names acc w :
  exists done rest,
    names = done ++ rest
    /\ written (trace (run h (MinIOSpark.upload_entries m buf pre names acc) w))
       = (fun n => (MinioObject.bucket_name m, entry_key pre n)) <$> done
    /\ (forall objs, outcome (run h (MinIOSpark.upload_entries m buf pre names acc) w)
                     = Ok objs -> rest = [])
    /\ (forall e, outcome (run h (MinIOSpark.upload_entries m buf pre names acc) w)
                  = Raise e -> rest <> []).
Proof.
  revert acc w. induction names as [|n names IH]; intros acc w; unfold outcome, trace; simpl.
  - exists [], []. by repeat split.
  - destruct (h (ZipRead buf n) w) as [[data|e] w1]; simpl;
      [|exists [], (n :: names); by repeat split].
    destruct (h (PutObject _ _ data _) w1) as [[[]|e] w2]; simpl;
      [|exists [], (n :: names); by repeat split].
    destruct (IH (acc ++ [MinioObject.mk (MinioObject.bucket_name m) (pre +:+ "/" +:+ n)]) w2)
      as (done & rest & -> & Hw & Hok & Hraise).
    unfold outcome, trace in *.
    destruct (run h (MinIOSpark.upload_entries m buf pre (done ++ rest) _) w2)
      as [[r w3] tr]. simpl in *.
    exists (n :: done), rest. split; [done|]. split; [|by split].
    simpl. f_equal. exact Hw.
Qed.

End Expansion.

(** X1. A successful expansion, for every archive and every behaviour of
    the store: after fetching the archive and listing its names, the method
    reads each entry and writes it, unchanged and with its own length, to
    "{destination_prefix}/{entry_name}" in the archive's bucket, one write
    per name, in the order of the archive and without filtering; it returns
    one object reference per name, in that order. *)
Theorem expansion_writes_every_entry (W : Type) (h : Handler W) (w : W)
    (m : MinioObject.t) (dst : option MinioObject.t) (etb : bool)
    (objs : list MinioObject.t) :
  outcome (run h (MinIOSpark.extract_and_upload_zip m dst etb) w) = Ok objs ->
  exists buf names tr,
    trace (run h (MinIOSpark.extract_and_upload_zip m dst etb) w)
      = Ev (GetObject (MinioObject.bucket_name m) (MinioObject.name m)) (Ok buf)
        :: Ev (ZipNamelist buf) (Ok names) :: tr
    /\ uploaded (MinioObject.bucket_name m) (MinIOSpark.destination_prefix_of m dst etb)
         buf names tr
    /\ objs = (fun n => MinioObject.mk (MinioObject.bucket_name m)
                          (entry_key (MinIOSpark.destination_prefix_of m dst etb) n))
              <$> names.
Proof.
  unfold MinIOSpark.extract_and_upload_zip, outcome, trace. simpl.
  destruct (h (GetObject _ _) w) as [[buf|e] w1]; simpl; [|done].
  destruct (h (ZipNamelist buf) w1) as [[names|e] w2]; simpl; [|done].
  pose proof (upload_entries_ok h m buf (MinIOSpark.destination_prefix_of m dst etb)
                names [] w2) as Hup.
  unfold outcome, trace in Hup.
  destruct (run h (MinIOSpark.upload_entries m buf _ names []) w2) as [[r w3] tr].
  simpl in *. intros Hr. destruct (Hup objs Hr) as [Hu ->].
  by exists buf, names, tr.
Qed.

Lemma expansion_writes_every_entry_witness :
  exists buf names tr,
    trace (run Scenario.handle
             (MinIOSpark.extract_and_upload_zip (MinioObject.mk "B" "P.zip") None false)
             Scenario.pair_world)
      = Ev (GetObject "B" "P.zip") (Ok buf) :: Ev (ZipNamelist buf) (Ok names) :: tr
    /\ uploaded "B" "P" buf names tr
    /\ [MinioObject.mk "B" "P/a.csv"; MinioObject.mk "B" "P/sub/b.csv"]
       = (fun n => MinioObject.mk "B" (entry_key "P" n)) <$> names.
Proof.
  apply (expansion_writes_every_entry Ref.World Scenario.handle Scenario.pair_world
           (MinioObject.mk "B" "P.zip") None false
           [MinioObject.mk "B" "P/a.csv"; MinioObject.mk "B" "P/sub/b.csv"]).
  vm_compute; reflexivity.
Defined.

(** X2. No rollback and no skipping: once the archive's names are listed,
    the writes an expansion has made when it ends are exactly those of the
    first entries of the archive, in order.  They are all the entries when
    it returns; when it raises, the entry at which it raised and the ones
    after it are not written, and the ones before it stay written. *)
Theorem expansion_writes_a_prefix (W : Type) (h : Handler W) (w w1 w2 : W)
    (m : MinioObject.t) (dst : option MinioObject.t) (etb : bool)
    (buf : bytes) (names : list string) :
  h (GetObject (MinioObject.bucket_name m) (MinioObject.name m)) w = (Ok buf, w1) ->
  h (ZipNamelist buf) w1 = (Ok names, w2) ->
  exists done rest,
    names = done ++ rest
    /\ written (trace (run h (MinIOSpark.extract_and_upload_zip m dst etb) w))
       = (fun n => (MinioObject.bucket_name m,
                    entry_key (MinIOSpark.destination_prefix_of m dst etb) n)) <$> done
    /\ (forall objs, outcome (run h (MinIOSpark.extract_and_upload_zip m dst etb) w)
                     = Ok objs -> rest = [])
    /\ (forall e, outcome (run h (MinIOSpark.extract_and_upload_zip m dst etb) w)
                  = Raise e -> rest <> []).
Proof.
  intros Hget Hnames.
  unfold MinIOSpark.extract_and_upload_zip, outcome, trace. simpl.
  rewrite Hget. simpl. rewrite Hnames. simpl.
  destruct (upload_entries_written h m buf (MinIOSpark.destination_prefix_of m dst etb)
              names [] w2) as (done & rest & Hn & Hw & Hok & Hraise).
  unfold outcome, trace in *.
  destruct (run h (MinIOSpark.upload_entries m buf _ names []) w2) as [[r w3] tr].
  simpl in *. by exists done, rest.
Qed.

Lemma expansion_writes_a_prefix_witness :
  exists done rest,
    ["a.csv"; "sub/b.csv"] = done ++ rest
    /\ written (trace (run Quota.handle
          (MinIOSpark.extract_and_upload_zip (MinioObject.mk "B" "P.zip") None false)
          Scenario.pair_world))
       = (fun n => ("B", entry_key "P" n)) <$> done
    /\ (forall objs, outcome (run Quota.handle
          (MinIOSpark.extract_and_upload_zip (MinioObject.mk "B" "P.zip") None false)
          Scenario.pair_world) = Ok objs -> rest = [])
    /\ (forall e, outcome (run Quota.handle
          (MinIOSpark.extract_and_upload_zip (MinioObject.mk "B" "P.zip") None false)
          Scenario.pair_world) = Raise e -> rest <> []).
Proof.
  apply (expansion_writes_a_prefix Ref.World Quota.handle
           Scenario.pair_world Scenario.pair_world Scenario.pair_world
           (MinioObject.mk "B" "P.zip") None false Scenario.pair_zip ["a.csv"; "sub/b.csv"]);
    vm_compute; reflexivity.
Defined.

Example quota_stops_after_the_first_entry :
  outcome (run Quota.handle
    (MinIOSpark.extract_and_upload_zip (MinioObject.mk "B" "P.zip") None false)
    Scenario.pair_world) = Raise StorageWriteError
  /\ written (trace (run Quota.handle
    (MinIOSpark.extract_and_upload_zip (MinioObject.mk "B" "P.zip") None false)
    Scenario.pair_world)) = [("B", "P/a.csv")].
Proof. split; vm_compute; reflexivity. Qed.

Section ExpansionOnTheStore.
Variable unzip : bytes -> option (list (string * bytes)).

Lemma zip_read_listed (entries : list (string * bytes)) (n : string) :
  n ∈ entries.*1 -> is_Some (Ref.zip_read entries n).
Proof.
  induction entries as [|[n' d] entries IH]; simpl; [by intros ?%elem_of_nil|].
  intros [->|Hin]%elem_of_cons.
  - destruct (Ref.zip_read entries n'); [by eexists|]. rewrite String.eqb_refl. by eexists.
  - destruct (IH Hin) as [d' ->]. by eexists.
Qed.

Lemma entry_key_inj (pre n n' : string) : entry_key pre n = entry_key pre n' -> n = n'.
Proof.
  unfold entry_key. intros Heq. apply (inj (String.app pre)) in Heq.
  by apply (inj (String.app "/")) in Heq.
Qed.

Lemma ref_upload_entries (entries : list (string * bytes)) (buf : bytes)
    (m : MinioObject.t) (pre : string) (ns : list string)
    (acc : list MinioObject.t) (w : Ref.World) :
  unzip buf = Some entries ->
  (forall n, n ∈ ns -> is_Some (Ref.zip_read entries n)) ->
  bool_decide (MinioObject.bucket_name m ∈ Ref.buckets w) = true ->
  outcome (run (Ref.handle unzip) (MinIOSpark.upload_entries m buf pre ns acc) w)
    = Ok (acc ++ ((fun n => MinioObject.mk (MinioObject.bucket_name m) (entry_key pre n))
                    <$> ns))
  /\ (forall n, n ∈ ns ->
        Ref.objects (final (run (Ref.handle unzip)
                              (MinIOSpark.upload_entries m buf pre ns acc) w))
          !! (MinioObject.bucket_name m, entry_key pre n) = Ref.zip_read entries n)
  /\ (forall key, (forall n, n ∈ ns -> key <> (MinioObject.bucket_name m, entry_key pre n)) ->
        Ref.objects (final (run (Ref.handle unzip)
                              (MinIOSpark.upload_entries m buf pre ns acc) w))
          !! key = Ref.objects w !! key)
  /\ Ref.buckets (final (run (Ref.handle unzip)
                           (MinIOSpark.upload_entries m buf pre ns acc) w)) = Ref.buckets w
  /\ Ref.datasets (final (run (Ref.handle unzip)
                            (MinIOSpark.upload_entries m buf pre ns acc) w)) = Ref.datasets w
  /\ Ref.views (final (run (Ref.handle unzip)
                         (MinIOSpark.upload_entries m buf pre ns acc) w)) = Ref.views w.
Proof.
  intros Hun. revert acc w. induction ns as [|n ns IH]; intros acc w Hall Hb.
  - unfold outcome, final. simpl. rewrite app_nil_r.
    repeat split; try done. by intros n ?%elem_of_nil.
  - destruct (Hall n ltac:(by left)) as [data Hdata].
    set (w1 := Ref.mkWorld (Ref.buckets w)
                 (<[(MinioObject.bucket_name m, entry_key pre n) := data]> (Ref.objects w))
                 (Ref.datasets w) (Ref.views w)).
    specialize (IH (acc ++ [MinioObject.mk (MinioObject.bucket_name m) (entry_key pre n)]) w1
                  (fun n' Hn' => Hall n' ltac:(by right)) Hb).
    assert (Hrun : run (Ref.handle unzip) (MinIOSpark.upload_entries m buf pre (n :: ns) acc) w
      = (outcome (run (Ref.handle unzip) (MinIOSpark.upload_entries m buf pre ns
           (acc ++ [MinioObject.mk (MinioObject.bucket_name m) (entry_key pre n)])) w1),
         final (run (Ref.handle unzip) (MinIOSpark.upload_entries m buf pre ns
           (acc ++ [MinioObject.mk (MinioObject.bucket_name m) (entry_key pre n)])) w1),
         Ev (ZipRead buf n) (Ok data)
         :: Ev (PutObject (MinioObject.bucket_name m) (entry_key pre n) data
                  (String.length data)) (Ok tt)
         :: trace (run (Ref.handle unzip) (MinIOSpark.upload_entries m buf pre ns
           (acc ++ [MinioObject.mk (MinioObject.bucket_name m) (entry_key pre n)])) w1))).
    { simpl. rewrite Hun. simpl. rewrite Hdata, Hb. subst w1. unfold entry_key.
      by destruct (run _ _ _) as [[r w2] tr]. }
    rewrite Hrun. unfold outcome at 1, final at 1 2 3 4 5. simpl.
    destruct IH as (Hout & Hread & Hframe & Hbk & Hds & Hvw).
    split; [rewrite Hout; by rewrite <- app_assoc|].
    split; [|split; [|by repeat split]].
    + intros n' Hn'. destruct (decide (n' ∈ ns)) as [Hin|Hnin]; [by apply Hread|].
      apply elem_of_cons in Hn' as [->|?]; [|done].
      rewrite Hframe.
      * simpl. by rewrite lookup_insert_eq.
      * intros n'' Hn'' [= Heq]. apply entry_key_inj in Heq. by subst.
    + intros key Hkey. rewrite Hframe.
      * simpl. rewrite lookup_insert_ne; [done|].
        intros Heq. exact (Hkey n ltac:(by left) (eq_sym Heq)).
      * intros n' Hn'. apply Hkey. by right.
Qed.

End ExpansionOnTheStore.

(** X3. Round trip through the reference store: when the archive's bucket
    exists, the archive is there and is readable, the expansion returns,
    and afterwards every entry name of the archive reads back, at
    "{destination_prefix}/{name}" in that bucket, the bytes zip_ref.read
    gives for the name (those of the last entry carrying it); every other
    key of the store holds what it held, and buckets, datasets and views
    are untouched. *)
Theorem expansion_round_trip
    (unzip : bytes -> option (list (string * bytes))) (w : Ref.World)
    (m : MinioObject.t) (dst : option MinioObject.t) (etb : bool)
    (buf : bytes) (entries : list (string * bytes)) :
  bool_decide (MinioObject.bucket_name m ∈ Ref.buckets w) = true ->
  Ref.objects w !! (MinioObject.bucket_name m, MinioObject.name m) = Some buf ->
  unzip buf = Some entries ->
  outcome (run (Ref.handle unzip) (MinIOSpark.extract_and_upload_zip m dst etb) w)
    = Ok ((fun n => MinioObject.mk (MinioObject.bucket_name m)
                      (entry_key (MinIOSpark.destination_prefix_of m dst etb) n))
            <$> entries.*1)
  /\ (forall n, n ∈ entries.*1 ->
        Ref.objects (final (run (Ref.handle unzip)
                              (MinIOSpark.extract_and_upload_zip m dst etb) w))
          !! (MinioObject.bucket_name m,
              entry_key (MinIOSpark.destination_prefix_of m dst etb) n)
        = Ref.zip_read entries n)
  /\ (forall key,
        (forall n, n ∈ entries.*1 ->
           key <> (MinioObject.bucket_name m,
                   entry_key (MinIOSpark.destination_prefix_of m dst etb) n)) ->
        Ref.objects (final (run (Ref.handle unzip)
                              (MinIOSpark.extract_and_upload_zip m dst etb) w))
          !! key = Ref.objects w !! key)
  /\ Ref.buckets (final (run (Ref.handle unzip)
                           (MinIOSpark.extract_and_upload_zip m dst etb) w)) = Ref.buckets w
  /\ Ref.datasets (final (run (Ref.handle unzip)
                            (MinIOSpark.extract_and_upload_zip m dst etb) w)) = Ref.datasets w
  /\ Ref.views (final (run (Ref.handle unzip)
                         (MinIOSpark.extract_and_upload_zip m dst etb) w)) = Ref.views w.
Proof.
  intros Hb Hobj Hun.
  pose proof (ref_upload_entries unzip entries buf m
                (MinIOSpark.destination_prefix_of m dst etb) entries.*1 [] w Hun
                (zip_read_listed entries) Hb) as Hup.
  assert (Hrun : run (Ref.handle unzip) (MinIOSpark.extract_and_upload_zip m dst etb) w
    = (outcome (run (Ref.handle unzip) (MinIOSpark.upload_entries m buf
                  (MinIOSpark.destination_prefix_of m dst etb) entries.*1 []) w),
       final (run (Ref.handle unzip) (MinIOSpark.upload_entries m buf
                  (MinIOSpark.destination_prefix_of m dst etb) entries.*1 []) w),
       Ev (GetObject (MinioObject.bucket_name m) (MinioObject.name m)) (Ok buf)
       :: Ev (ZipNamelist buf) (Ok entries.*1)
       :: trace (run (Ref.handle unzip) (MinIOSpark.upload_entries m buf
                  (MinIOSpark.destination_prefix_of m dst etb) entries.*1 []) w))).
  { unfold MinIOSpark.extract_and_upload_zip. simpl. rewrite Hobj. simpl. rewrite Hun.
    by destruct (run _ _ w) as [[r w2] tr]. }
  rewrite Hrun. exact Hup.
Qed.

Lemma expansion_round_trip_witness :
  outcome (run Scenario.handle
    (MinIOSpark.extract_and_upload_zip (MinioObject.mk "B" "P.zip") None false)
    Scenario.pair_world)
  = Ok ((fun n => MinioObject.mk "B" (entry_key "P" n)) <$> ["a.csv"; "sub/b.csv"])
  /\ Ref.objects (final (run Scenario.handle
       (MinIOSpark.extract_and_upload_zip (MinioObject.mk "B" "P.zip") None false)
       Scenario.pair_world)) !! ("B", "P.zip") = Some Scenario.pair_zip.
Proof.
  destruct (expansion_round_trip Scenario.unzip Scenario.pair_world
              (MinioObject.mk "B" "P.zip") None false Scenario.pair_zip
              [("a.csv", "A"); ("sub/b.csv", "B")]) as (Hout & _ & Hframe & _);
    [vm_compute; reflexivity..|].
  split; [exact Hout|].
  rewrite Hframe; [vm_compute; reflexivity|].
  intros n Hn. vm_compute. intros [=].
Defined.

(* ===================================================================== *)
(* 17. The batch and read_csv_from_zip                                    *)
(* ===================================================================== *)

Section BatchCalls.

Lemma extract_confined m dst etb :
  all_calls (confined_to m (MinIOSpark.destination_prefix_of m dst etb))
    (MinIOSpark.extract_and_upload_zip m dst etb).
Proof.
  unfold MinIOSpark.extract_and_upload_zip. simpl. split; [done|]. intros buf.
  split; [done|]. intros names. generalize (@nil MinioObject.t).
  induction names as [|n names IH]; intros acc; simpl; [done|].
  split; [done|]. intros data. split; [by eauto|]. intros []. apply IH.
Qed.

Lemma all_calls_and {A : Type} (P Q : Call -> Prop) (p : Prog A) :
  all_calls P p -> all_calls Q p -> all_calls (fun c => P c /\ Q c) p.
Proof.
  induction p as [a|c k IH]; simpl; [done|].
  intros [Hp Hpk] [Hq Hqk]. split; [done|]. intros x. by apply IH.
Qed.

Lemma expand_each_calls (bucket : string) (objects : list string) :
  all_calls (fun c => expands_beside_archive bucket c /\ is_csv_read c = false)
    (MinIOSpark.expand_each bucket objects false).
Proof.
  induction objects as [|obj objects IH]; [done|].
  change (MinIOSpark.expand_each bucket (obj :: objects) false)
    with ((if PyStr.endswith obj ".zip"
           then MinIOSpark.extract_and_upload_zip (MinioObject.mk bucket obj) None false
                ≫= (fun _ => mret tt)
           else mret tt)
          ≫= (fun _ => MinIOSpark.expand_each bucket objects false)).
  apply all_calls_bind; [|by intros _].
  destruct (PyStr.endswith obj ".zip") eqn:Hzip; [|done].
  apply all_calls_bind; [|by intros _].
  eapply all_calls_mono;
    [|apply all_calls_and; [apply extract_confined|apply extract_and_upload_zip_calls]].
  intros [] [Hc Hex]; simpl in *; try done.
  - destruct Hc as [-> ->]. by repeat split.
  - destruct Hc as [-> [n ->]]. split; [|done]. split; [done|]. by exists obj, n.
Qed.

Lemma by_prefix_calls (bucket prefix : string) :
  all_calls (fun c => expands_beside_archive bucket c /\ is_csv_read c = false)
    (MinIOSpark.extract_and_upload_zip_by_prefix bucket prefix false).
Proof.
  unfold MinIOSpark.extract_and_upload_zip_by_prefix. simpl. split; [done|].
  intros objects. apply expand_each_calls.
Qed.

Context {W : Type} (h : Handler W).

Lemma expand_each_no_archive (bucket : string) (objects : list string) (etb : bool) (w : W) :
  Forall (fun o => PyStr.endswith o ".zip" = false) objects ->
  run h (MinIOSpark.expand_each bucket objects etb) w = (Ok tt, w, []).
Proof.
  induction 1 as [|obj objects Hobj _ IH]; [done|].
  simpl. rewrite Hobj. exact IH.
Qed.

End BatchCalls.

(** X4. An expansion stays in the archive's bucket: whatever the store
    answers, the only object it fetches is the archive and every write goes
    to the archive's own bucket, below the destination prefix.  In
    particular the bucket of an explicit destination object is ignored:
    only its key is used, as a prefix inside the archive's bucket. *)
Theorem expansion_stays_in_archive_bucket :
  (forall (W : Type) (h : Handler W) (w : W) (m : MinioObject.t)
          (dst : option MinioObject.t) (etb : bool),
      Forall (confined_to m (MinIOSpark.destination_prefix_of m dst etb))
        (calls (run h (MinIOSpark.extract_and_upload_zip m dst etb) w)))
  /\ (forall (W : Type) (h : Handler W) (w : W) (m : MinioObject.t)
             (other_bucket key : string),
        Forall (confined_to m key)
          (calls (run h (MinIOSpark.extract_and_upload_zip m
                           (Some (MinioObject.mk other_bucket key)) false) w))).
Proof.
  split.
  - intros W h w m dst etb. apply all_calls_run, extract_confined.
  - intros W h w m other_bucket key.
    apply all_calls_run, (extract_confined m (Some (MinioObject.mk other_bucket key)) false).
Qed.

(** X5. A listing without archives: when no listed key ends in ".zip" (the
    listing is empty, or holds only other files, ".ZIP" included), the
    batch makes no call besides the listing, changes nothing and returns. *)
Theorem batch_without_archives (W : Type) (h : Handler W) (w w1 : W)
    (bucket prefix : string) (extract_to_bucket : bool) (objects : list string) :
  h (ListObjects bucket prefix) w = (Ok objects, w1) ->
  forallb (fun o => negb (PyStr.endswith o ".zip")) objects = true ->
  run h (MinIOSpark.extract_and_upload_zip_by_prefix bucket prefix extract_to_bucket) w
  = (Ok tt, w1, [Ev (ListObjects bucket prefix) (Ok objects)]).
Proof.
  intros Hlist Hnone.
  unfold MinIOSpark.extract_and_upload_zip_by_prefix. simpl. rewrite Hlist.
  rewrite expand_each_no_archive; [done|].
  apply Forall_forall. intros o Ho. rewrite forallb_forall in Hnone.
  apply list_elem_of_In in Ho. specialize (Hnone o Ho). by apply negb_true_iff in Hnone.
Qed.

Lemma batch_without_archives_witness :
  run Scenario.handle (MinIOSpark.extract_and_upload_zip_by_prefix "raw" "" true)
    Scenario.csv_world
  = (Ok tt, Scenario.csv_world, [Ev (ListObjects "raw" "") (Ok ["rows.csv"])]).
Proof.
  apply (batch_without_archives Ref.World Scenario.handle Scenario.csv_world
           Scenario.csv_world "raw" "" true ["rows.csv"]); vm_compute; reflexivity.
Defined.

(** X6. read_csv_from_zip, for every behaviour of the collaborators: it
    expands with the default policy, so it fetches only keys ending in
    ".zip" and writes only below such a key without its extension, in the
    given bucket; it loads once, as its last call, the address
    "s3a://{bucket}/{prefix}" with the reader of read_csv_to_dataframe, and
    returns what that load returns; when the expansion raises, nothing is
    loaded and that exception is the result. *)
Theorem read_csv_from_zip_expands_then_loads (W : Type) (h : Handler W) (w : W)
    (bucket prefix delimiter format_source : string)
    (option_args : option (list (string * string))) :
  Forall (expands_beside_archive bucket)
    (calls (run h (MinIOSpark.read_csv_from_zip bucket prefix delimiter format_source
                     option_args) w))
  /\ exists tr,
       tr = trace (run h (MinIOSpark.extract_and_upload_zip_by_prefix bucket prefix false) w)
       /\ Forall (fun ev => is_csv_read (ev_call ev) = false) tr
       /\ (forall e,
             outcome (run h (MinIOSpark.extract_and_upload_zip_by_prefix bucket prefix false) w)
               = Raise e ->
             outcome (run h (MinIOSpark.read_csv_from_zip bucket prefix delimiter
                               format_source option_args) w) = Raise e
             /\ trace (run h (MinIOSpark.read_csv_from_zip bucket prefix delimiter
                                format_source option_args) w) = tr)
       /\ (forall df,
             outcome (run h (MinIOSpark.read_csv_from_zip bucket prefix delimiter
                               format_source option_args) w) = Ok df ->
             trace (run h (MinIOSpark.read_csv_from_zip bucket prefix delimiter
                             format_source option_args) w)
             = tr ++ [Ev (ReaderLoad (reader_of format_source delimiter option_args)
                            ("s3a://" +:+ bucket +:+ "/" +:+ prefix)) (Ok df)]).
Proof.
  split.
  - apply all_calls_run.
    apply (all_calls_bind _ (MinIOSpark.extract_and_upload_zip_by_prefix bucket prefix false));
      [|by intros _].
    eapply all_calls_mono; [|apply by_prefix_calls]. by intros ? [].
  - exists (trace (run h (MinIOSpark.extract_and_upload_zip_by_prefix bucket prefix false) w)).
    split; [done|]. split.
    { pose proof (all_calls_run h _ _ w (by_prefix_calls bucket prefix)) as Hf.
      unfold calls in Hf. apply Forall_fmap in Hf.
      eapply Forall_impl; [exact Hf|]. by intros ev []. }
    change (MinIOSpark.read_csv_from_zip bucket prefix delimiter format_source option_args)
      with (MinIOSpark.extract_and_upload_zip_by_prefix bucket prefix false
            ≫= (fun _ => call (ReaderLoad (reader_of format_source delimiter option_args)
                                 ("s3a://" +:+ bucket +:+ "/" +:+ prefix)))).
    rewrite run_bind. unfold outcome, trace.
    destruct (run h (MinIOSpark.extract_and_upload_zip_by_prefix bucket prefix false) w)
      as [[[[]|e] w1] tr]; simpl.
    + split; [done|]. intros df.
      destruct (h (ReaderLoad _ _) w1) as [[df'|e] w2]; simpl; [|done].
      by intros [= ->].
    + split; [by intros e' [= ->]|done].
Qed.

(* ===================================================================== *)
(* 18. More on ingest_file_to_datalake                                    *)
(* ===================================================================== *)

Section IngestMore.
#[local] Arguments materialise : simpl never.

Lemma materialise_footprints b p d delim opts :
  all_calls (fun c => write_footprint b p d c /\ read_footprint b p d delim opts c
                      /\ is_bucket_call c = false)
    (materialise b p d delim opts).
Proof.
  unfold materialise. apply all_calls_bind.
  - unfold read_footprint, source_path. destruct (PyStr.endswith p ".zip") eqn:Hzip.
    + apply all_calls_bind; [|intros _; simpl; by repeat split].
      eapply all_calls_mono;
        [|apply all_calls_and;
          [apply (extract_confined (MinIOSpark.get_object b p) None true)
          |apply extract_and_upload_zip_calls]].
      intros [] [Hc Hex]; simpl in *; try done.
      * by destruct Hc as [-> ->].
      * by destruct Hc as [-> _].
    + by simpl.
  - intros df. by simpl.
Qed.

Lemma ingest_footprints b p d v delim opts :
  all_calls (fun c => write_footprint b p d c /\ read_footprint b p d delim opts c)
    (MinIOSpark.ingest_file_to_datalake b p d v delim opts).
Proof.
  assert (Hrest : all_calls
            (fun c => write_footprint b p d c /\ read_footprint b p d delim opts c)
            (after_ensure b p d v delim opts)).
  { unfold after_ensure. simpl. split; [done|]. intros [|]; [by simpl|].
    apply (all_calls_bind _ (materialise b p d delim opts)); [|by intros df].
    eapply all_calls_mono; [|apply materialise_footprints]. by intros ? (? & ? & ?). }
  rewrite ingest_eq. simpl. split; [done|]. intros [|]; simpl; [exact Hrest|].
  split; [done|]. intros []. exact Hrest.
Qed.

Lemma after_ensure_no_bucket_call b p d v delim opts :
  all_calls (fun c => is_bucket_call c = false) (after_ensure b p d v delim opts).
Proof.
  unfold after_ensure. simpl. split; [done|]. intros [|]; [by simpl|].
  apply (all_calls_bind _ (materialise b p d delim opts)); [|by intros df].
  eapply all_calls_mono; [|apply materialise_footprints]. by intros ? (? & ? & ?).
Qed.

Lemma filter_none (f : Call -> bool) (cs : list Call) :
  Forall (fun c => f c = false) cs -> List.filter f cs = [].
Proof. induction 1 as [|c cs Hc _ IH]; simpl; [done|]. by rewrite Hc. Qed.

Context {W : Type} (h : Handler W).

(* A materialisation that returns: the source load, the write of what it
   returned, and the reload that gives the result. *)
Lemma materialise_ok w b p d delim opts df :
  outcome (run h (materialise b p d delim opts) w) = Ok df ->
  (exists tr df0,
      trace (run h (materialise b p d delim opts) w)
      = tr ++ [Ev (ReaderLoad (reader_of "csv" delim opts) (source_path b p)) (Ok df0);
               Ev (WriteParquet df0 "overwrite" (artifact_path d p)) (Ok tt);
               Ev (ReadParquet (artifact_path d p)) (Ok df)])
  /\ exists w0, h (ReadParquet (artifact_path d p)) w0
               = (Ok df, final (run h (materialise b p d delim opts) w)).
Proof.
  unfold materialise, source_path.
  set (load := if PyStr.endswith p ".zip" then _ else _).
  assert (Hload : forall df0, outcome (run h load w) = Ok df0 ->
            exists tr, trace (run h load w)
              = tr ++ [Ev (ReaderLoad (reader_of "csv" delim opts)
                             ("s3a://" +:+ b +:+ "/" +:+
                              (if PyStr.endswith p ".zip" then (OsPath.splitext p).1 else p)))
                          (Ok df0)]).
  { subst load. destruct (PyStr.endswith p ".zip").
    - intros df0. rewrite run_bind. unfold outcome, trace.
      destruct (run h (MinIOSpark.extract_and_upload_zip _ None true) w)
        as [[[objs|e] w1] tr]; simpl; [|done].
      destruct (h (ReaderLoad _ _) w1) as [[df1|e] w2]; simpl; [|done].
      intros [= ->]. by exists tr.
    - intros df0. unfold outcome, trace. simpl.
      destruct (h (ReaderLoad _ _) w) as [[df1|e] w2]; simpl; [|done].
      intros [= ->]. by exists []. }
  rewrite run_bind. unfold outcome, trace, final in *.
  destruct (run h load w) as [[[df0|e] w1] tr1]; simpl in *; [|done].
  destruct (Hload df0 eq_refl) as [tr ->].
  unfold artifact_path.
  destruct (h (WriteParquet df0 _ _) w1) as [[[]|e] w2]; simpl; [|done].
  destruct (h (ReadParquet _) w2) as [[df1|e] w3] eqn:Hread; simpl; [|done].
  intros [= ->]. split.
  - exists tr, df0. by rewrite <- app_assoc.
  - by exists w2.
Qed.

End IngestMore.

Section IngestRuns.
Context {W : Type} (h : Handler W).
#[local] Arguments materialise : simpl never.

Lemma cache_hit_app (tr1 tr2 : list Event) :
  cache_hit (tr1 ++ tr2) = cache_hit tr1 || cache_hit tr2.
Proof. apply existsb_app. Qed.

Lemma trace_of {A : Type} (r : Result A) (w : W) (tr : list Event) : trace (r, w, tr) = tr.
Proof. reflexivity. Qed.

Lemma outcome_of {A : Type} (r : Result A) (w : W) (tr : list Event) : outcome (r, w, tr) = r.
Proof. reflexivity. Qed.

Lemma final_of {A : Type} (r : Result A) (w : W) (tr : list Event) : final (r, w, tr) = w.
Proof. reflexivity. Qed.

Lemma after_ensure_miss_ok w b p d v delim opts df :
  cache_miss (trace (run h (after_ensure b p d v delim opts) w)) = true ->
  outcome (run h (after_ensure b p d v delim opts) w) = Ok df ->
  exists tr df0,
    trace (run h (after_ensure b p d v delim opts) w)
    = tr ++ [Ev (ReaderLoad (reader_of "csv" delim opts) (source_path b p)) (Ok df0);
             Ev (WriteParquet df0 "overwrite" (artifact_path d p)) (Ok tt);
             Ev (ReadParquet (artifact_path d p)) (Ok df);
             Ev (CreateOrReplaceTempView df (MinIOSpark.view_name p v)) (Ok tt)].
Proof.
  unfold after_ensure, outcome, trace. simpl.
  destruct (h (ObjectExists d (MinIOSpark.parquet_object_name p)) w) as [[[] |e] w2];
    simpl; [| |done].
  - destruct (h (ReadParquet _) w2) as [[df1|e] w3]; simpl; [|done].
    by destruct (h (CreateOrReplaceTempView df1 _) w3) as [[[]|e] w4].
  - intros _. rewrite run_bind.
    pose proof (materialise_ok h w2 b p d delim opts) as Hmat.
    unfold outcome, trace in Hmat.
    destruct (run h (materialise b p d delim opts) w2) as [[[df1|e] w3] tr1]; simpl in *;
      [|done].
    destruct (Hmat df1 eq_refl) as [(tr & df0 & ->) _].
    destruct (h (CreateOrReplaceTempView df1 _) w3) as [[[]|e] w4]; simpl; [|done].
    intros [= ->].
    exists (Ev (ObjectExists d (MinIOSpark.parquet_object_name p)) (Ok false) :: tr), df0.
    simpl. f_equal. by rewrite <- app_assoc.
Qed.

Lemma after_ensure_hit_same w b b' p d v delim delim' opts opts' :
  cache_hit (trace (run h (after_ensure b p d v delim opts) w)) = true ->
  run h (after_ensure b' p d v delim' opts') w = run h (after_ensure b p d v delim opts) w.
Proof.
  unfold after_ensure, trace. simpl.
  destruct (h (ObjectExists d (MinIOSpark.parquet_object_name p)) w) as [[[] |e] w2];
    simpl; [done| |done].
  pose proof (no_check_no_answer
    (run h (materialise b p d delim opts ≫= publish p v) w2) true
    (all_calls_run h _ _ w2 (after_miss_calls b p d v delim opts))) as Hno.
  unfold trace in Hno.
  destruct (run h (materialise b p d delim opts ≫= _) w2) as [[r w4] tr].
  simpl in *. unfold cache_hit. simpl. by rewrite Hno.
Qed.

#[local] Opaque after_ensure.

Lemma ingest_hit_same w b b' p d v delim delim' opts opts' :
  cache_hit (trace (run h (MinIOSpark.ingest_file_to_datalake b p d v delim opts) w)) = true ->
  run h (MinIOSpark.ingest_file_to_datalake b' p d v delim' opts') w
  = run h (MinIOSpark.ingest_file_to_datalake b p d v delim opts) w.
Proof.
  rewrite !ingest_eq. unfold trace. simpl.
  destruct (h (BucketExists d) w) as [[[] |e] w1]; simpl; [| |done].
  - pose proof (after_ensure_hit_same w1 b b' p d v delim delim' opts opts') as Hsame.
    unfold trace in Hsame. rewrite <- (Bool.orb_false_l (cache_hit _)).
    destruct (run h (after_ensure b p d v delim opts) w1) as [[r w2] tr].
    simpl in *. intros Hhit. by rewrite (Hsame Hhit).
  - destruct (h (BucketMake d) w1) as [[[] |e] w1']; simpl; [|done].
    pose proof (after_ensure_hit_same w1' b b' p d v delim delim' opts opts') as Hsame.
    unfold trace in Hsame.
    destruct (run h (after_ensure b p d v delim opts) w1') as [[r w2] tr].
    simpl in *. intros Hhit. by rewrite (Hsame Hhit).
Qed.

End IngestRuns.

(** X7. What a cache miss persists and returns: an ingestion call whose
    cache check finds nothing and which returns ends with four calls: the
    CSV load of the source address, the write in overwrite mode, at the
    artifact's address, of exactly the table that load returned, the
    reload of the artifact, and the registration of the view; the table
    returned and viewed is the reloaded one, not the one loaded from the
    source. *)
Theorem cache_miss_persists_then_reloads (W : Type) (h : Handler W) (w : W)
    (b p d : string) (v : option string) (delim : string)
    (opts : option (list (string * string))) (df : DataFrame) :
  cache_miss (trace (run h (MinIOSpark.ingest_file_to_datalake b p d v delim opts) w)) = true ->
  outcome (run h (MinIOSpark.ingest_file_to_datalake b p d v delim opts) w) = Ok df ->
  exists tr df0,
    trace (run h (MinIOSpark.ingest_file_to_datalake b p d v delim opts) w)
    = tr ++ [Ev (ReaderLoad (reader_of "csv" delim opts) (source_path b p)) (Ok df0);
             Ev (WriteParquet df0 "overwrite" (artifact_path d p)) (Ok tt);
             Ev (ReadParquet (artifact_path d p)) (Ok df);
             Ev (CreateOrReplaceTempView df (MinIOSpark.view_name p v)) (Ok tt)].
Proof.
  destruct (ingest_split h w b p d v delim opts)
    as [(e & w1 & tr & -> & _) | (w1 & pre & Hpre & ->)]; [done|].
  rewrite outcome_of, trace_of, cache_miss_app.
  assert (cache_miss pre = false) as -> by (destruct Hpre as [-> | ->]; done).
  rewrite Bool.orb_false_l. intros Hmiss Hout.
  destruct (after_ensure_miss_ok h w1 b p d v delim opts df Hmiss Hout) as (tr & df0 & ->).
  exists (pre ++ tr), df0. by rewrite <- app_assoc.
Qed.

Lemma cache_miss_persists_then_reloads_witness :
  exists tr df0,
    trace (run Scenario.handle
      (MinIOSpark.ingest_file_to_datalake "raw" "rows.csv" "stage" None "," None)
      Scenario.csv_world)
    = tr ++ [Ev (ReaderLoad (reader_of "csv" "," None) (source_path "raw" "rows.csv")) (Ok df0);
             Ev (WriteParquet df0 "overwrite" (artifact_path "stage" "rows.csv")) (Ok tt);
             Ev (ReadParquet (artifact_path "stage" "rows.csv")) (Ok Scenario.three_rows);
             Ev (CreateOrReplaceTempView Scenario.three_rows
                   (MinIOSpark.view_name "rows.csv" None)) (Ok tt)].
Proof.
  apply (cache_miss_persists_then_reloads Ref.World Scenario.handle Scenario.csv_world
           "raw" "rows.csv" "stage" None "," None Scenario.three_rows);
    vm_compute; reflexivity.
Defined.

(** X8. Write footprint of an ingestion, for every behaviour of the
    collaborators: it writes objects only to the source bucket, and only
    when the source key ends in ".zip"; the only dataset it writes is the
    canonical artifact, in overwrite mode; the only bucket it may create is
    the destination bucket. *)
Theorem ingestion_write_footprint (W : Type) (h : Handler W) (w : W)
    (b p d : string) (v : option string) (delim : string)
    (opts : option (list (string * string))) :
  Forall (write_footprint b p d)
    (calls (run h (MinIOSpark.ingest_file_to_datalake b p d v delim opts) w)).
Proof.
  eapply Forall_impl; [apply all_calls_run, (ingest_footprints b p d v delim opts)|].
  by intros c [].
Qed.

(** X9. Read footprint of an ingestion, for every behaviour of the
    collaborators: the only object it fetches is the source itself, and
    only when its key ends in ".zip"; it never lists a bucket; every load
    of source data is a "csv" load with the caller's options (or the
    defaults) followed by the delimiter, at the folder named after the
    archive for an archive key and at the source key otherwise; existence
    is checked only of the destination bucket and of the artifact. *)
Theorem ingestion_read_footprint (W : Type) (h : Handler W) (w : W)
    (b p d : string) (v : option string) (delim : string)
    (opts : option (list (string * string))) :
  Forall (read_footprint b p d delim opts)
    (calls (run h (MinIOSpark.ingest_file_to_datalake b p d v delim opts) w)).
Proof.
  eapply Forall_impl; [apply all_calls_run, (ingest_footprints b p d v delim opts)|].
  by intros c [].
Qed.

(** X10. The destination bucket is checked once, first, and created at most
    once, only after that check answered false: the bucket calls of an
    ingestion are the check alone, or the check answered false followed by
    the creation. *)
Theorem ingestion_creates_bucket_only_if_absent (W : Type) (h : Handler W) (w : W)
    (b p d : string) (v : option string) (delim : string)
    (opts : option (list (string * string))) :
  List.filter is_bucket_call
    (calls (run h (MinIOSpark.ingest_file_to_datalake b p d v delim opts) w))
  = [BucketExists d]
  \/ (List.filter is_bucket_call
        (calls (run h (MinIOSpark.ingest_file_to_datalake b p d v delim opts) w))
      = [BucketExists d; BucketMake d]
      /\ head (trace (run h (MinIOSpark.ingest_file_to_datalake b p d v delim opts) w))
         = Some (Ev (BucketExists d) (Ok false))).
Proof.
  destruct (ingest_split h w b p d v delim opts)
    as [(e & w1 & tr & -> & [-> | ->]) | (w1 & pre & Hpre & ->)].
  - by left.
  - by right.
  - unfold calls. rewrite !trace_of, fmap_app, List.filter_app.
    pose proof (filter_none is_bucket_call _
      (all_calls_run h _ _ w1 (after_ensure_no_bucket_call b p d v delim opts))) as Hnone.
    unfold calls in Hnone. rewrite Hnone, app_nil_r.
    destruct Hpre as [-> | ->]; [by left|by right].
Qed.

(** X11. The cache key ignores where the data comes from: when the cache
    check of an ingestion finds the artifact, the same call with any other
    source bucket, delimiter and options, from the same state, makes the
    same calls and gives the same result: the cached table of another
    bucket's object of the same key, or of the same object read with other
    options, is served as it is. *)
Theorem cache_hit_ignores_source (W : Type) (h : Handler W) (w : W)
    (b b' p d : string) (v : option string) (delim delim' : string)
    (opts opts' : option (list (string * string))) :
  cache_hit (trace (run h (MinIOSpark.ingest_file_to_datalake b p d v delim opts) w)) = true ->
  run h (MinIOSpark.ingest_file_to_datalake b' p d v delim' opts') w
  = run h (MinIOSpark.ingest_file_to_datalake b p d v delim opts) w.
Proof.
  apply ingest_hit_same.
Qed.

Lemma cache_hit_ignores_source_witness :
  run Scenario.handle
    (MinIOSpark.ingest_file_to_datalake "elsewhere" "rows.csv" "stage" None ";"
       (Some [("header", "false")]))
    Scenario.cached_world
  = run Scenario.handle
      (MinIOSpark.ingest_file_to_datalake "raw" "rows.csv" "stage" None "," None)
      Scenario.cached_world.
Proof.
  apply (cache_hit_ignores_source Ref.World Scenario.handle Scenario.cached_world
           "raw" "elsewhere" "rows.csv" "stage" None "," ";" None (Some [("header", "false")])).
  vm_compute; reflexivity.
Defined.

(* ===================================================================== *)
(* 19. Options, extensions and archive keys                               *)
(* ===================================================================== *)

Section OptionsAndKeys.
Import PyStr OsPath.

Lemma effective_snoc_other (key k x : string) (o : list (string * string)) :
  String.eqb k key = false -> effective key (o ++ [(k, x)]) = effective key o.
Proof.
  intros Hne. induction o as [|[k' x'] o IH]; simpl.
  - by rewrite Hne.
  - by rewrite IH.
Qed.

Lemma splitext_loop_root p dotIndex filenameIndex fuel r :
  splitext_loop p dotIndex filenameIndex fuel = Some r ->
  r.1 = slice_to dotIndex p /\ (0 < fuel)%nat.
Proof.
  revert filenameIndex. induction fuel as [|fuel IH]; intros fi; simpl; [done|].
  assert (Hstep : forall fi', splitext_loop p dotIndex fi' fuel = Some r ->
                              r.1 = slice_to dotIndex p /\ (0 < S fuel)%nat).
  { intros fi' Hr. destruct (IH fi' Hr). split; [done|lia]. }
  destruct (String.get fi p) as [a|]; [|intros [= <-]; split; [done|lia]].
  destruct (Ascii.eqb_spec a "."%char) as [->|Hne]; [apply Hstep|].
  destruct a as [[] [] [] [] [] [] [] []];
    try (intros [= <-]; split; [done|lia]); apply Hstep.
Qed.

Lemma splitext_root_nonempty (a : ascii) (s : string) :
  (splitext (String a s)).1 <> EmptyString.
Proof.
  unfold splitext. destruct (rfind "/" (String a s) <? rfind "." (String a s)); [|done].
  destruct (splitext_loop _ _ _ _) as [r|] eqn:E; [|done].
  apply splitext_loop_root in E as [-> Hfuel].
  destruct (Z.to_nat (rfind "." (String a s))) as [|k]; [lia|]. done.
Qed.

Lemma length_append (s t : string) :
  String.length (s +:+ t) = (String.length s + String.length t)%nat.
Proof.
  induction s as [|a s IH]; [reflexivity|]. rewrite append_cons. simpl. by rewrite IH.
Qed.

Lemma endswith_split (s suffix : string) :
  endswith s suffix = true ->
  s = slice_to (String.length s - String.length suffix) s +:+ suffix.
Proof.
  unfold endswith. destruct (String.length suffix <=? String.length s)%nat eqn:Hle; [|done].
  apply Nat.leb_le in Hle. intros Heq%String.eqb_eq.
  rewrite <- (slice_to_from (String.length s - String.length suffix) s) at 1.
  f_equal. unfold slice_from.
  replace (String.length s - (String.length s - String.length suffix))%nat
    with (String.length suffix) by lia.
  exact Heq.
Qed.

Lemma no_char_app_has (c : ascii) (y r : string) : no_char c (y +:+ String c r) = false.
Proof.
  induction y as [|a y IH].
  - change (EmptyString +:+ String c r) with (String c r). simpl.
    by rewrite Ascii.eqb_refl.
  - rewrite append_cons. simpl. rewrite IH. apply andb_false_r.
Qed.

(* A string is cut at its last [c] in one way only. *)
Lemma last_char_unique (c : ascii) (x y r r' : string) :
  no_char c r = true -> no_char c r' = true ->
  x +:+ String c r = y +:+ String c r' -> x = y /\ r = r'.
Proof.
  intros Hr Hr'. revert y. induction x as [|a x IH]; intros [|b y].
  - change (String c r = String c r' -> EmptyString = EmptyString /\ r = r').
    by intros [= ->].
  - change (EmptyString +:+ String c r) with (String c r). rewrite append_cons.
    intros [= <- ->]. by rewrite no_char_app_has in Hr.
  - change (EmptyString +:+ String c r') with (String c r'). rewrite append_cons.
    intros [= -> <-]. by rewrite no_char_app_has in Hr'.
  - rewrite !append_cons. intros [= -> Heq]. by destruct (IH y Heq) as [-> ->].
Qed.

End OptionsAndKeys.

(** X12. The defaults are replaced, not merged: for every option other than
    the delimiter, the value in effect in the load is the one of the
    caller's options alone when the caller supplies options (none when they
    do not name it, so a caller who passes options without 'header' reads
    without header=true), and the one of header=true, inferSchema=true
    when the caller supplies None. *)
Theorem loader_replaces_defaults (bucket prefix delimiter format_source key : string)
    (option_args : option (list (string * string))) :
  String.eqb "delimiter" key = false ->
  MinIOSpark.read_csv_to_dataframe bucket prefix delimiter format_source option_args
    = call (ReaderLoad (reader_of format_source delimiter option_args)
              ("s3a://" +:+ bucket +:+ "/" +:+ prefix))
  /\ effective key (options (reader_of format_source delimiter option_args))
     = effective key (match option_args with
                      | None => [("header", "true"); ("inferSchema", "true")]
                      | Some o => o
                      end).
Proof.
  intros Hkey. split; [reflexivity|].
  unfold reader_of. simpl. rewrite foldl_option_options. simpl.
  rewrite (effective_snoc_other key "delimiter" delimiter _ Hkey).
  by destruct option_args.
Qed.

Lemma loader_replaces_defaults_witness :
  MinIOSpark.read_csv_to_dataframe "raw" "rows.csv" ";" "csv" (Some [("encoding", "latin1")])
    = call (ReaderLoad (reader_of "csv" ";" (Some [("encoding", "latin1")]))
              "s3a://raw/rows.csv")
  /\ effective "header" (options (reader_of "csv" ";" (Some [("encoding", "latin1")])))
     = effective "header" [("encoding", "latin1")].
Proof.
  apply (loader_replaces_defaults "raw" "rows.csv" ";" "csv" "header"
           (Some [("encoding", "latin1")])).
  reflexivity.
Defined.

(** X13. The root os.path.splitext returns is empty only for the empty
    path; so the default view name is empty only for the empty source key,
    and the canonical key is the bare ".parquet" only for it. *)
Theorem splitext_root_empty_iff (p : string) :
  ((OsPath.splitext p).1 = EmptyString <-> p = EmptyString)
  /\ (MinIOSpark.view_name p None = EmptyString <-> p = EmptyString)
  /\ (MinIOSpark.parquet_object_name p = ".parquet" <-> p = EmptyString).
Proof.
  assert (Hroot : (OsPath.splitext p).1 = EmptyString <-> p = EmptyString).
  { split; [|by intros ->]. destruct p as [|a s]; [done|].
    intros Hr. by apply splitext_root_nonempty in Hr. }
  split; [exact Hroot|]. split; [exact Hroot|].
  unfold MinIOSpark.parquet_object_name. rewrite <- Hroot. split.
  - destruct ((OsPath.splitext p).1) as [|a s]; [done|].
    rewrite append_cons. intros [= -> Hs].
    apply (f_equal String.length) in Hs. rewrite length_append in Hs. simpl in Hs. lia.
  - by intros ->.
Qed.

(** X14. Archive keys and their folder: for a source key ending in ".zip",
    os.path.splitext cuts off exactly ".zip", so that the folder the
    ingestion loads is the key without ".zip", or it cuts off nothing (a
    file name made of dots before "zip", such as ".zip"), and the address
    loaded is then the archive's own key. *)
Theorem archive_key_extension (p : string) :
  PyStr.endswith p ".zip" = true ->
  ((OsPath.splitext p).2 = ".zip" /\ (OsPath.splitext p).1 +:+ ".zip" = p)
  \/ ((OsPath.splitext p).2 = EmptyString /\ (OsPath.splitext p).1 = p).
Proof.
  intros Hzip. pose proof (splitext_join p) as Hjoin.
  destruct (splitext_ext_shape p) as [Hext | (rest & Hext & Hdot & _)].
  - right. split; [done|]. rewrite Hext, append_empty_r in Hjoin. done.
  - left. apply endswith_split in Hzip. rewrite Hext in Hjoin.
    set (pre := PyStr.slice_to (String.length p - String.length ".zip") p) in Hzip.
    assert (Hcut : (OsPath.splitext p).1 +:+ String "." rest = pre +:+ String "." "zip")
      by (rewrite Hjoin; exact Hzip).
    apply (last_char_unique "." _ _ rest "zip" Hdot eq_refl) in Hcut as [Hroot ->].
    split; [done|]. rewrite Hroot. symmetry. exact Hzip.
Qed.

Lemma archive_key_extension_witness :
  ((OsPath.splitext "sales/2024.zip").2 = ".zip"
   /\ (OsPath.splitext "sales/2024.zip").1 +:+ ".zip" = "sales/2024.zip")
  \/ ((OsPath.splitext "sales/2024.zip").2 = EmptyString
      /\ (OsPath.splitext "sales/2024.zip").1 = "sales/2024.zip").
Proof. apply (archive_key_extension "sales/2024.zip"). reflexivity. Defined.

Example dotted_archive_key : OsPath.splitext "in/.zip" = ("in/.zip", "").
Proof. reflexivity. Qed.

(* ===================================================================== *)
(* 20. MinIOClient.make_bucket                                            *)
(* ===================================================================== *)

(** X15. make_bucket of MinIOClient is create-if-absent and idempotent: on
    a library client whose existence check answers without changing
    anything and sees a bucket once it is created, a make_bucket that
    returned is followed by a make_bucket that only checks: it finds the
    bucket, does not call the library's make_bucket again, changes nothing
    and returns. *)
Theorem make_bucket_idempotent (W : Type) (h : Handler W) (bucket_name : string) (w : W) :
  (forall w0, exists present, h (BucketExists bucket_name) w0 = (Ok present, w0)) ->
  (forall w0 w1, h (BucketMake bucket_name) w0 = (Ok tt, w1) ->
                 h (BucketExists bucket_name) w1 = (Ok true, w1)) ->
  outcome (run h (MinIOClient.make_bucket bucket_name) w) = Ok tt ->
  run h (MinIOClient.make_bucket bucket_name)
    (final (run h (MinIOClient.make_bucket bucket_name) w))
  = (Ok tt, final (run h (MinIOClient.make_bucket bucket_name) w),
     [Ev (BucketExists bucket_name) (Ok true)]).
Proof.
  intros Hex Hmk. unfold MinIOClient.make_bucket, MinIOClient.bucket_exists, outcome, final.
  simpl. destruct (Hex w) as [present Hp]. rewrite Hp. destruct present; simpl.
  - intros _. by rewrite Hp.
  - destruct (h (BucketMake bucket_name) w) as [[[]|e] w1] eqn:Hm; simpl; [|done].
    intros _. by rewrite (Hmk w w1 Hm).
Qed.

Lemma make_bucket_idempotent_witness :
  run Scenario.handle (MinIOClient.make_bucket "stage")
    (final (run Scenario.handle (MinIOClient.make_bucket "stage") Scenario.csv_world))
  = (Ok tt, final (run Scenario.handle (MinIOClient.make_bucket "stage") Scenario.csv_world),
     [Ev (BucketExists "stage") (Ok true)]).
Proof.
  apply (make_bucket_idempotent Ref.World Scenario.handle "stage" Scenario.csv_world).
  - intros w0. eexists. reflexivity.
  - intros w0 w1 [= <-]. simpl. rewrite bool_decide_eq_true_2; [done|set_solver].
  - vm_compute; reflexivity.
Defined.

(* ===================================================================== *)
(* 21. Ingesting twice, on the reference store and engine                 *)
(* ===================================================================== *)

Section Reingestion.
#[local] Arguments materialise : simpl never.

(* What the first part of the method returns was read from the artifact,
   by its last call. *)
Lemma obtain_reloads {W : Type} (h : Handler W) w b p d delim opts df :
  outcome (run h (obtain b p d delim opts) w) = Ok df ->
  exists w0, h (ReadParquet (artifact_path d p)) w0
             = (Ok df, final (run h (obtain b p d delim opts) w)).
Proof.
  assert (Hrest : forall w1,
    outcome (run h (parquet_exists ← call (ObjectExists d (MinIOSpark.parquet_object_name p));
                    if (parquet_exists : bool)
                    then call (ReadParquet (artifact_path d p))
                    else materialise b p d delim opts) w1) = Ok df ->
    exists w0, h (ReadParquet (artifact_path d p)) w0
      = (Ok df, final (run h (parquet_exists ← call (ObjectExists d
                                                      (MinIOSpark.parquet_object_name p));
                              if (parquet_exists : bool)
                              then call (ReadParquet (artifact_path d p))
                              else materialise b p d delim opts) w1))).
  { intros w1. unfold outcome, final. simpl.
    destruct (h (ObjectExists d (MinIOSpark.parquet_object_name p)) w1) as [[[] |e] w2];
      simpl; [| |done].
    - destruct (h (ReadParquet _) w2) as [[df1|e] w3] eqn:Hread; simpl; [|done].
      intros [= ->]. by exists w2.
    - pose proof (materialise_ok h w2 b p d delim opts df) as Hmat.
      unfold outcome, final in Hmat.
      destruct (run h (materialise b p d delim opts) w2) as [[r w3] tr]. simpl in *.
      intros Hr. by destruct (Hmat Hr) as [_ Hw0]. }
  unfold obtain, outcome, final. simpl.
  destruct (h (BucketExists d) w) as [[[] |e] w1]; simpl; [| |done].
  - specialize (Hrest w1). unfold outcome, final in Hrest. simpl in Hrest.
    destruct (h (ObjectExists d (MinIOSpark.parquet_object_name p)) w1) as [[pe|e] w2];
      simpl in *; [|done].
    by destruct (run h _ w2) as [[r w3] tr].
  - destruct (h (BucketMake d) w1) as [[[] |e] w1']; simpl; [|done].
    specialize (Hrest w1'). unfold outcome, final in Hrest. simpl in Hrest.
    destruct (h (ObjectExists d (MinIOSpark.parquet_object_name p)) w1') as [[pe|e] w2];
      simpl in *; [|done].
    by destruct (run h _ w2) as [[r w3] tr].
Qed.

Variable unzip : bytes -> option (list (string * bytes)).

(* After an ingestion that returned, the artifact holds the table returned. *)
Lemma ref_ingest_leaves_artifact w b p d v delim opts df :
  no_slash d = true ->
  outcome (run (Ref.handle unzip)
             (MinIOSpark.ingest_file_to_datalake b p d v delim opts) w) = Ok df ->
  Ref.datasets (final (run (Ref.handle unzip)
                  (MinIOSpark.ingest_file_to_datalake b p d v delim opts) w))
    !! (d, MinIOSpark.parquet_object_name p) = Some df.
Proof.
  intros Hd. rewrite run_ingest.
  pose proof (obtain_reloads (Ref.handle unzip) w b p d delim opts) as Hre.
  unfold outcome, final in *.
  destruct (run (Ref.handle unzip) (obtain b p d delim opts) w) as [[[df'|e] w1] tr];
    simpl in *; [|done].
  intros [= ->]. destruct (Hre df eq_refl) as [w0 Hw0].
  unfold artifact_path in Hw0. simpl in Hw0. rewrite (split_path_join d _ Hd) in Hw0.
  simpl in Hw0.
  destruct (Ref.datasets w0 !! (d, MinIOSpark.parquet_object_name p)) as [df0|] eqn:Hds;
    [|done].
  by injection Hw0 as -> ->.
Qed.

(* An ingestion on a store that holds the artifact. *)
Lemma ref_ingest_hit w b p d v delim opts df :
  no_slash d = true ->
  Ref.datasets w !! (d, MinIOSpark.parquet_object_name p) = Some df ->
  outcome (run (Ref.handle unzip)
             (MinIOSpark.ingest_file_to_datalake b p d v delim opts) w) = Ok df
  /\ cache_hit (trace (run (Ref.handle unzip)
                         (MinIOSpark.ingest_file_to_datalake b p d v delim opts) w)) = true
  /\ Ref.objects (final (run (Ref.handle unzip)
                    (MinIOSpark.ingest_file_to_datalake b p d v delim opts) w))
     = Ref.objects w
  /\ Ref.datasets (final (run (Ref.handle unzip)
                     (MinIOSpark.ingest_file_to_datalake b p d v delim opts) w))
     = Ref.datasets w.
Proof.
  intros Hd Hds.
  rewrite ingest_eq. unfold after_ensure, artifact_path, outcome, final, trace. simpl.
  destruct (bool_decide (d ∈ Ref.buckets w)); simpl;
    rewrite Hds; simpl; rewrite orb_true_r; simpl;
    rewrite (split_path_join d _ Hd); simpl; rewrite Hds; simpl; done.
Qed.

End Reingestion.

(** X16. Ingesting twice, on the reference store and engine: after an
    ingestion that returned a table, an ingestion of the same source key
    into the same destination bucket (from whatever source bucket, under
    whatever view name, delimiter and options) finds the artifact, returns
    that same table, and leaves objects and datasets as the first call
    left them. *)
Theorem reingestion_hits_the_cache
    (unzip : bytes -> option (list (string * bytes))) (w : Ref.World)
    (b b' p d : string) (v v' : option string) (delim delim' : string)
    (opts opts' : option (list (string * string))) (df : DataFrame) :
  no_slash d = true ->
  outcome (run (Ref.handle unzip)
             (MinIOSpark.ingest_file_to_datalake b p d v delim opts) w) = Ok df ->
  outcome (run (Ref.handle unzip)
             (MinIOSpark.ingest_file_to_datalake b' p d v' delim' opts')
             (final (run (Ref.handle unzip)
                       (MinIOSpark.ingest_file_to_datalake b p d v delim opts) w))) = Ok df
  /\ cache_hit (trace (run (Ref.handle unzip)
             (MinIOSpark.ingest_file_to_datalake b' p d v' delim' opts')
             (final (run (Ref.handle unzip)
                       (MinIOSpark.ingest_file_to_datalake b p d v delim opts) w)))) = true
  /\ Ref.objects (final (run (Ref.handle unzip)
             (MinIOSpark.ingest_file_to_datalake b' p d v' delim' opts')
             (final (run (Ref.handle unzip)
                       (MinIOSpark.ingest_file_to_datalake b p d v delim opts) w))))
     = Ref.objects (final (run (Ref.handle unzip)
                       (MinIOSpark.ingest_file_to_datalake b p d v delim opts) w))
  /\ Ref.datasets (final (run (Ref.handle unzip)
             (MinIOSpark.ingest_file_to_datalake b' p d v' delim' opts')
             (final (run (Ref.handle unzip)
                       (MinIOSpark.ingest_file_to_datalake b p d v delim opts) w))))
     = Ref.datasets (final (run (Ref.handle unzip)
                       (MinIOSpark.ingest_file_to_datalake b p d v delim opts) w)).
Proof.
  intros Hd Hout.
  apply (ref_ingest_hit unzip _ b' p d v' delim' opts' df Hd).
  by apply ref_ingest_leaves_artifact.
Qed.

Lemma reingestion_hits_the_cache_witness :
  outcome (run Scenario.handle
             (MinIOSpark.ingest_file_to_datalake "raw" "rows.csv" "stage" (Some "again") ";" None)
             (final (run Scenario.handle
                       (MinIOSpark.ingest_file_to_datalake "raw" "rows.csv" "stage"
                          None "," None) Scenario.csv_world))) = Ok Scenario.three_rows.
Proof.
  apply (reingestion_hits_the_cache Scenario.unzip Scenario.csv_world
           "raw" "raw" "rows.csv" "stage" None (Some "again") "," ";" None None
           Scenario.three_rows); vm_compute; reflexivity.
Defined.

Lemma read_csv_from_zip_expands_then_loads_witness :
  trace (run Scenario.handle
           (MinIOSpark.read_csv_from_zip "raw" "batch" "," "csv" None) Scenario.zip_world)
  = trace (run Scenario.handle
             (MinIOSpark.extract_and_upload_zip_by_prefix "raw" "batch" false)
             Scenario.zip_world)
    ++ [Ev (ReaderLoad (reader_of "csv" "," None) ("s3a://" +:+ "raw" +:+ "/" +:+ "batch"))
          (Ok Scenario.three_rows)].
Proof.
  destruct (read_csv_from_zip_expands_then_loads Ref.World Scenario.handle
              Scenario.zip_world "raw" "batch" "," "csv" None)
    as (_ & tr & -> & _ & _ & Hok).
  apply Hok. vm_compute; reflexivity.
Defined.

Lemma splitext_root_empty_iff_witness :
  MinIOSpark.view_name EmptyString None = EmptyString.
Proof.
  apply (proj2 (proj1 (proj2 (splitext_root_empty_iff EmptyString)))). reflexivity.
Defined.
